(** * GenAILiveClient: the live streaming session client

    A shallow embedding of the class [GenAILiveClient]: its connection
    state, its three outbound operations, the four transport callbacks and
    the inbound message dispatcher.  Every method becomes a function from
    the client state to the new state and the list of effects the method
    performs, in program order: events published on the emitter, calls on
    the transport, and lines written to the console. *)

From Stdlib Require Import List Bool Arith ZArith Lia Ascii String.
From Stdlib Require Import Init.Byte.
From Stdlib Require Import DecimalString.
Import ListNotations.

Local Open Scope string_scope.
Local Open Scope list_scope.

(** ** JavaScript string primitives used by the client *)

Module JsString.

(** [s.startsWith(pre)] *)
Definition startsWith (s pre : string) : bool := String.prefix pre s.

(** [s.indexOf(pat)]: position of the first occurrence, [-1] if none. *)
Definition indexOf (s pat : string) : Z :=
  match String.index 0 pat s with
  | Some i => Z.of_nat i
  | None => (-1)%Z
  end.

(** [s.includes(pat)] *)
Definition includes (s pat : string) : bool :=
  match String.index 0 pat s with
  | Some _ => true
  | None => false
  end.

Definition lower_char (c : ascii) : ascii :=
  let n := nat_of_ascii c in
  if ((65 <=? n) && (n <=? 90))%nat then ascii_of_nat (n + 32) else c.

(** [s.toLowerCase()] on the ASCII range. *)
Fixpoint toLowerCase (s : string) : string :=
  match s with
  | EmptyString => EmptyString
  | String c r => String (lower_char c) (toLowerCase r)
  end.

Fixpoint drop (n : nat) (s : string) : string :=
  match n, s with
  | O, _ => s
  | S _, EmptyString => EmptyString
  | S k, String _ r => drop k r
  end.

(** [s.slice(start, Infinity)]: a negative [start] counts from the end,
    a [start] past the end gives the empty string. *)
Definition slice_from (s : string) (start : Z) : string :=
  let len := Z.of_nat (String.length s) in
  let from := if (start <? 0)%Z then Z.max (len + start) 0 else Z.min start len in
  drop (Z.to_nat from) s.

(** Truthiness of a string: only the empty string is falsy. *)
Definition truthy (s : string) : bool :=
  match s with
  | EmptyString => false
  | String _ _ => true
  end.

(** Decimal rendering of a number inside a template string. *)
Definition of_nat (n : nat) : string := NilEmpty.string_of_uint (Nat.to_uint n).

End JsString.

(** ** Data model *)

(** The raw bytes of an [ArrayBuffer]. *)
Definition ArrayBuffer : Type := list byte.

Definition byteLength (b : ArrayBuffer) : nat := List.length b.

(** [Blob]: both fields are optional in the SDK's type. *)
Record Blob : Type := mkBlob {
  mimeType : option string;
  data : option string
}.

(** [Part]: the inline data, and the text that stands for every other
    optional field of a part. *)
Record Part : Type := mkPart {
  inlineData : option Blob;
  text : option string
}.

(** Parts are JavaScript objects: an array of parts holds references, and
    the heap gives the object behind each reference. *)
Definition ref : Type := nat.
Definition Heap : Type := ref -> Part.

Record Content : Type := mkContent {
  parts : option (list ref)
}.

(** [Transcription]; [isFinal] is read through [as any] and may be absent. *)
Record Transcription : Type := mkTranscription {
  t_text : string;
  isFinal : option bool
}.

(** [LiveServerContent]: independent optional signals.  A flag is [true]
    when the field is present and truthy. *)
Record LiveServerContent : Type := mkServerContent {
  interrupted : bool;
  inputTranscription : option Transcription;
  outputTranscription : option Transcription;
  modelTurn : option Content;
  turnComplete : bool
}.

Record LiveServerToolCall : Type := mkToolCall {
  functionCalls : list string
}.

Record LiveServerToolCallCancellation : Type := mkCancellation {
  ids : list string
}.

(** [LiveServerMessage]: a record of optional fields, probed in turn. *)
Record LiveServerMessage : Type := mkMessage {
  setupComplete : bool;
  toolCall : option LiveServerToolCall;
  toolCallCancellation : option LiveServerToolCallCancellation;
  serverContent : option LiveServerContent
}.

Record LiveClientToolResponse : Type := mkToolResponse {
  functionResponses : option (list string)
}.

(** A realtime chunk [{ mimeType, data }]. *)
Record Chunk : Type := mkChunk {
  c_mimeType : string;
  c_data : string
}.

Record ErrorEvent : Type := mkErrorEvent {
  ee_type : string;
  ee_message : string
}.

Record CloseEvent : Type := mkCloseEvent {
  ce_type : string;
  reason : string
}.

(** The [message] of a log entry: [string | object]. *)
Inductive LogMessage : Type :=
| MsgText (s : string)
| MsgServerMessage (m : LiveServerMessage)
| MsgParts (ps : list ref)
| MsgToolResponse (r : LiveClientToolResponse).

(** [StreamingLog]; the [date] of an entry is the wall clock and is left out. *)
Record StreamingLog : Type := mkLog {
  log_type : string;
  log_message : LogMessage
}.

(** [LiveClientEventTypes]: the events of the emitter with their arguments. *)
Inductive Event : Type :=
| EvAudio (buf : ArrayBuffer)
| EvClose (e : CloseEvent)
| EvContent (c : LiveServerContent)
| EvError (e : ErrorEvent)
| EvInterrupted
| EvLog (l : StreamingLog)
| EvOpen
| EvSetupComplete
| EvToolCall (tc : LiveServerToolCall)
| EvToolCallCancellation (c : LiveServerToolCallCancellation)
| EvTurnComplete
| EvInputTranscription (txt : string) (final : bool)
| EvOutputTranscription (txt : string) (final : bool).

(** The opaque [Session] handle handed out by the transport. *)
Definition Session : Type := nat.

Definition LiveConnectConfig : Type := list (string * string).

(** Calls made on the transport. *)
Inductive TransportCall : Type :=
| LiveConnect (model : string) (config : LiveConnectConfig)
| SessionClose (h : Session)
| SendClientContent (h : Session) (turns : list ref) (turnComplete : bool)
| SendRealtimeInput (h : Session) (media : Chunk)
| SendToolResponse (h : Session) (responses : list string).

Inductive Effect : Type :=
| Emit (e : Event)
| Transport (c : TransportCall)
| ConsoleError (label : string).

Inductive Status : Type := connected | disconnected | connecting.

(** The mutable fields of the client. *)
Record Client : Type := mkClient {
  model : string;
  session : option Session;
  _status : Status
}.

Definition DEFAULT_LIVE_API_MODEL : string :=
  "gemini-2.5-flash-native-audio-preview-09-2025".

(** [constructor(apiKey, model?)]: an empty model name is falsy and keeps
    the default. *)
Definition new_client (model : option string) : Client :=
  {| model := match model with
              | Some m => if JsString.truthy m then m else DEFAULT_LIVE_API_MODEL
              | None => DEFAULT_LIVE_API_MODEL
              end;
     session := None;
     _status := disconnected |}.

Definition set_status (s : Status) (c : Client) : Client :=
  {| model := model c; session := session c; _status := s |}.

Definition set_session (h : option Session) (c : Client) : Client :=
  {| model := model c; session := h; _status := _status c |}.

(** ** The client's methods *)

(** [log(type, message)]: one [log] event. *)
Definition log (type : string) (message : LogMessage) : list Effect :=
  [Emit (EvLog {| log_type := type; log_message := message |})].

(** [new ErrorEvent('Client is not connected')]: the string is the event's
    type, its message is empty. *)
Definition not_connected_event : ErrorEvent :=
  {| ee_type := "Client is not connected"; ee_message := "" |}.

(** [send(parts, turnComplete = true)] *)
Definition send (ps : list ref) (turnComplete : option bool) (c : Client)
  : Client * list Effect :=
  match _status c, session c with
  | connected, Some h =>
      let tc := match turnComplete with Some b => b | None => true end in
      (c, Transport (SendClientContent h ps tc) :: log "client.send" (MsgParts ps))
  | _, _ => (c, [Emit (EvError not_connected_event)])
  end.

(** The classification loop of [sendRealtimeInput], with its [break]. *)
Fixpoint scan_chunks (chunks : list Chunk) (hasAudio hasVideo : bool) : bool * bool :=
  match chunks with
  | [] => (hasAudio, hasVideo)
  | ch :: rest =>
      let hasAudio := if JsString.includes (c_mimeType ch) "audio" then true else hasAudio in
      let hasVideo := if JsString.includes (c_mimeType ch) "image" then true else hasVideo in
      if hasAudio && hasVideo then (hasAudio, hasVideo)
      else scan_chunks rest hasAudio hasVideo
  end.

Definition classify_chunks (chunks : list Chunk) : string :=
  let '(hasAudio, hasVideo) := scan_chunks chunks false false in
  if hasAudio && hasVideo then "audio + video"
  else if hasAudio then "audio"
  else if hasVideo then "video"
  else "unknown".

(** [sendRealtimeInput(chunks)] *)
Definition sendRealtimeInput (chunks : list Chunk) (c : Client)
  : Client * list Effect :=
  match _status c, session c with
  | connected, Some h =>
      (c, map (fun chunk => Transport (SendRealtimeInput h chunk)) chunks
          ++ log "client.realtimeInput" (MsgText (classify_chunks chunks)))
  | _, _ => (c, [Emit (EvError not_connected_event)])
  end.

(** [sendToolResponse(toolResponse)] *)
Definition sendToolResponse (toolResponse : LiveClientToolResponse) (c : Client)
  : Client * list Effect :=
  match _status c, session c with
  | connected, Some h =>
      (c, match functionResponses toolResponse with
          | Some (r :: rs) => [Transport (SendToolResponse h (r :: rs))]
          | _ => []
          end
          ++ log "client.toolResponse" (MsgToolResponse toolResponse))
  | _, _ => (c, [Emit (EvError not_connected_event)])
  end.

(** [onError(e)] *)
Definition onError (e : ErrorEvent) (c : Client) : Client * list Effect :=
  (set_status disconnected c,
   ConsoleError "error:"
   :: log ("server." ++ ee_type e)
          (MsgText ("Could not connect to GenAI Live: " ++ ee_message e))
   ++ [Emit (EvError e)]).

(** [onOpen()] *)
Definition onOpen (c : Client) : Client * list Effect :=
  (set_status connected c, [Emit EvOpen]).

(** The reason computed at the head of [onClose] from [e.reason]. *)
Definition close_reason (raw : string) : string :=
  let reason := raw in
  if JsString.includes (JsString.toLowerCase reason) "error" then
    let prelude := "ERROR]" in
    let preludeIndex := JsString.indexOf reason prelude in
    if (0 <? preludeIndex)%Z then
      JsString.slice_from reason (preludeIndex + Z.of_nat (String.length prelude) + 1)%Z
    else reason
  else reason.

(** [onClose(e)] *)
Definition onClose (e : CloseEvent) (c : Client) : Client * list Effect :=
  let reason := close_reason (reason e) in
  (set_status disconnected c,
   log ("server." ++ ce_type e)
       (MsgText ("disconnected "
                 ++ (if JsString.truthy reason then "with reason: " ++ reason else "")))
   ++ [Emit (EvClose e)]).

(** [disconnect()]: returns [true]. *)
Definition disconnect (c : Client) : Client * list Effect * bool :=
  (set_status disconnected (set_session None c),
   match session c with
   | Some h => [Transport (SessionClose h)]
   | None => []
   end
   ++ log "client.close" (MsgText "Disconnected"),
   true).

(** What [connect] does before it suspends on the transport. *)
Inductive Suspension : Type :=
| Returned (b : bool)
| Awaiting.

(** [connect(config)] up to the [await]. *)
Definition connect_begin (config : LiveConnectConfig) (c : Client)
  : Client * list Effect * Suspension :=
  match _status c with
  | connected | connecting => (c, [], Returned false)
  | disconnected =>
      (set_status connecting c, [Transport (LiveConnect (model c) config)], Awaiting)
  end.

(** [connect] resumed with the session the transport resolved to. *)
Definition connect_resolved (h : Session) (c : Client) : Client * list Effect * bool :=
  (set_status connected (set_session (Some h) c), [], true).

(** The value caught by [connect]: its [message], when it has one. *)
Definition Thrown : Type := option string.

(** [connect] resumed in its [catch] block. *)
Definition connect_rejected (e : Thrown) (c : Client) : Client * list Effect * bool :=
  let c1 := set_session None (set_status disconnected c) in
  let errorEvent :=
    {| ee_type := "error";
       ee_message := match e with
                     | Some m => if JsString.truthy m then m else "Failed to connect."
                     | None => "Failed to connect."
                     end |} in
  let '(c2, effs) := onError errorEvent c1 in
  (c2, ConsoleError "Error connecting to GenAI Live:" :: effs, false).

(** [difference(array, values)] of lodash: the elements of [array] that are
    not in [values], compared by SameValueZero, which on objects is
    reference identity. *)
Definition difference (array values : list ref) : list ref :=
  filter (fun x => negb (existsb (Nat.eqb x) values)) array.

(** The record [{ modelTurn: { parts: otherParts } }] built for the
    [content] event. *)
Definition model_turn_content (otherParts : list ref) : LiveServerContent :=
  {| interrupted := false;
     inputTranscription := None;
     outputTranscription := None;
     modelTurn := Some {| parts := Some otherParts |};
     turnComplete := false |}.

Section Dispatcher.

(** [base64ToArrayBuffer] of [./utils], which the dispatcher imports. *)
Variable base64ToArrayBuffer : string -> ArrayBuffer.

(** The heap in which the parts of the inbound message live. *)
Variable heap : Heap.

(** [p.inlineData?.mimeType?.startsWith('audio/pcm')] *)
Definition is_audio_part (p : ref) : bool :=
  match inlineData (heap p) with
  | Some b =>
      match mimeType b with
      | Some m => JsString.startsWith m "audio/pcm"
      | None => false
      end
  | None => false
  end.

(** [p.inlineData?.data] *)
Definition payload_of (p : ref) : option string :=
  match inlineData (heap p) with
  | Some b => data b
  | None => None
  end.

(** The body of [base64s.forEach]. *)
Definition emit_audio (b64 : option string) : list Effect :=
  match b64 with
  | Some s =>
      if JsString.truthy s then
        let data := base64ToArrayBuffer s in
        Emit (EvAudio data)
        :: log "server.audio"
               (MsgText ("buffer (" ++ JsString.of_nat (byteLength data) ++ ")"))
      else []
  | None => []
  end.

(** The [if (serverContent.modelTurn)] block of [onMessage]. *)
Definition onModelTurn (message : LiveServerMessage) (turn : Content) : list Effect :=
  let parts := match parts turn with Some ps => ps | None => [] end in
  let audioParts := filter is_audio_part parts in
  let base64s := map payload_of audioParts in
  let otherParts := difference parts audioParts in
  flat_map emit_audio base64s
  ++ (if (0 <? List.length otherParts)%nat then
        let content := model_turn_content otherParts in
        Emit (EvContent content) :: log "server.content" (MsgServerMessage message)
      else []).

(** [isFinal ?? false] *)
Definition final_or_false (t : Transcription) : bool :=
  match isFinal t with
  | Some b => b
  | None => false
  end.

(** The [if (message.serverContent)] block of [onMessage]. *)
Definition onServerContent (message : LiveServerMessage) (sc : LiveServerContent)
  : list Effect :=
  if interrupted sc then
    log "receive.serverContent" (MsgText "interrupted") ++ [Emit EvInterrupted]
  else
    match inputTranscription sc with
    | Some t =>
        Emit (EvInputTranscription (t_text t) (final_or_false t))
        :: log "server.inputTranscription" (MsgText (t_text t))
    | None => []
    end
    ++ match outputTranscription sc with
       | Some t =>
           Emit (EvOutputTranscription (t_text t) (final_or_false t))
           :: log "server.outputTranscription" (MsgText (t_text t))
       | None => []
       end
    ++ match modelTurn sc with
       | Some turn => onModelTurn message turn
       | None => []
       end
    ++ (if turnComplete sc then
          log "server.send" (MsgText "turnComplete") ++ [Emit EvTurnComplete]
        else []).

(** [onMessage(message)] *)
Definition onMessage (message : LiveServerMessage) : list Effect :=
  if setupComplete message then [Emit EvSetupComplete]
  else
    match toolCall message with
    | Some tc => log "server.toolCall" (MsgServerMessage message) ++ [Emit (EvToolCall tc)]
    | None =>
        match toolCallCancellation message with
        | Some cancel =>
            log "receive.toolCallCancellation" (MsgServerMessage message)
            ++ [Emit (EvToolCallCancellation cancel)]
        | None =>
            match serverContent message with
            | Some sc => onServerContent message sc
            | None => []
            end
        end
    end.

End Dispatcher.

(** ** Runs of the client against its transport *)

(** What can happen to a client: the caller invokes a public method, a
    pending [connect] is resumed by the transport's promise, or the
    transport invokes one of the four callbacks. *)
Inductive Action : Type :=
| CallConnect (config : LiveConnectConfig)
| ConnectResolves (h : Session)
| ConnectRejects (e : Thrown)
| CallDisconnect
| CallSend (ps : list ref) (turnComplete : option bool)
| CallSendRealtimeInput (chunks : list Chunk)
| CallSendToolResponse (r : LiveClientToolResponse)
| TransportOpen
| TransportMessage (m : LiveServerMessage)
| TransportError (e : ErrorEvent)
| TransportClose (e : CloseEvent).

(** The client together with the number of [connect] calls suspended on
    the transport. *)
Record World : Type := mkWorld {
  client : Client;
  awaiting : nat
}.

Definition initial (model : option string) : World :=
  {| client := new_client model; awaiting := 0 |}.

Section Runs.

Variable base64ToArrayBuffer : string -> ArrayBuffer.
Variable heap : Heap.

(** One action; [None] when no [connect] is suspended for the transport
    to resume. *)
Definition step (a : Action) (w : World) : option (World * list Effect) :=
  let c := client w in
  let same (r : Client * list Effect) :=
    Some ({| client := fst r; awaiting := awaiting w |}, snd r) in
  match a with
  | CallConnect config =>
      let '(c', effs, s) := connect_begin config c in
      Some ({| client := c';
               awaiting := match s with
                           | Awaiting => S (awaiting w)
                           | Returned _ => awaiting w
                           end |}, effs)
  | ConnectResolves h =>
      match awaiting w with
      | O => None
      | S n =>
          let '(c', effs, _) := connect_resolved h c in
          Some ({| client := c'; awaiting := n |}, effs)
      end
  | ConnectRejects e =>
      match awaiting w with
      | O => None
      | S n =>
          let '(c', effs, _) := connect_rejected e c in
          Some ({| client := c'; awaiting := n |}, effs)
      end
  | CallDisconnect => same (fst (disconnect c))
  | CallSend ps tc => same (send ps tc c)
  | CallSendRealtimeInput chunks => same (sendRealtimeInput chunks c)
  | CallSendToolResponse r => same (sendToolResponse r c)
  | TransportOpen => same (onOpen c)
  | TransportMessage m => same (c, onMessage base64ToArrayBuffer heap m)
  | TransportError e => same (onError e c)
  | TransportClose e => same (onClose e c)
  end.

(** A sequence of actions, with the effects of all of them in order. *)
Fixpoint run (actions : list Action) (w : World) : option (World * list Effect) :=
  match actions with
  | [] => Some (w, [])
  | a :: rest =>
      match step a w with
      | Some (w1, effs1) =>
          match run rest w1 with
          | Some (w2, effs2) => Some (w2, effs1 ++ effs2)
          | None => None
          end
      | None => None
      end
  end.

End Runs.


(** ** Observations on a list of effects *)

(** The name under which an event is published on the emitter. *)
Definition event_name (e : Event) : string :=
  match e with
  | EvAudio _ => "audio"
  | EvClose _ => "close"
  | EvContent _ => "content"
  | EvError _ => "error"
  | EvInterrupted => "interrupted"
  | EvLog _ => "log"
  | EvOpen => "open"
  | EvSetupComplete => "setupcomplete"
  | EvToolCall _ => "toolcall"
  | EvToolCallCancellation _ => "toolcallcancellation"
  | EvTurnComplete => "turncomplete"
  | EvInputTranscription _ _ => "inputTranscription"
  | EvOutputTranscription _ _ => "outputTranscription"
  end.

(** The events published, in order. *)
Fixpoint emitted (effs : list Effect) : list Event :=
  match effs with
  | [] => []
  | Emit e :: rest => e :: emitted rest
  | _ :: rest => emitted rest
  end.

(** The events published under one of the given names, in order. *)
Definition select (names : list string) (effs : list Effect) : list Event :=
  filter (fun e => existsb (String.eqb (event_name e)) names) (emitted effs).

(** The entries published on the log channel, in order. *)
Fixpoint logs (effs : list Effect) : list StreamingLog :=
  match effs with
  | [] => []
  | Emit (EvLog l) :: rest => l :: logs rest
  | _ :: rest => logs rest
  end.

(** The calls made on the transport, in order. *)
Fixpoint transport_calls (effs : list Effect) : list TransportCall :=
  match effs with
  | [] => []
  | Transport c :: rest => c :: transport_calls rest
  | _ :: rest => transport_calls rest
  end.

(** The type tag of the log entry that accompanies an event, for the
    events that the client logs. *)
Definition log_tag (e : Event) : option string :=
  match e with
  | EvAudio _ => Some "server.audio"
  | EvContent _ => Some "server.content"
  | EvInterrupted => Some "receive.serverContent"
  | EvToolCall _ => Some "server.toolCall"
  | EvToolCallCancellation _ => Some "receive.toolCallCancellation"
  | EvTurnComplete => Some "server.send"
  | EvInputTranscription _ _ => Some "server.inputTranscription"
  | EvOutputTranscription _ _ => Some "server.outputTranscription"
  | _ => None
  end.

Fixpoint log_tags (es : list Event) : list string :=
  match es with
  | [] => []
  | e :: rest =>
      match log_tag e with
      | Some t => t :: log_tags rest
      | None => log_tags rest
      end
  end.

(** ** Vocabulary of the demultiplexer's properties *)

(** [parts || []] *)
Definition parts_or_empty (turn : Content) : list ref :=
  match parts turn with
  | Some ps => ps
  | None => []
  end.

(** The payload of a part is present and is not the empty string. *)
Definition has_payload (heap : Heap) (p : ref) : bool :=
  match payload_of heap p with
  | Some s => JsString.truthy s
  | None => false
  end.

Definition payload_string (heap : Heap) (p : ref) : string :=
  match payload_of heap p with
  | Some s => s
  | None => ""
  end.


(** ** Sample inputs *)

Module Sample.

(** A stand-in decoder: one zero byte per character of the payload. *)
Definition decode (s : string) : ArrayBuffer :=
  map (fun _ => Byte.x00) (list_ascii_of_string s).

Definition audioA : Part :=
  {| inlineData := Some {| mimeType := Some "audio/pcm;rate=24000"; data := Some "AAAA" |};
     text := None |}.
Definition audioB : Part :=
  {| inlineData := Some {| mimeType := Some "audio/pcm"; data := Some "AQID" |};
     text := None |}.
Definition text1 : Part := {| inlineData := None; text := Some "hello" |}.
Definition text2 : Part := {| inlineData := None; text := Some "world" |}.
(** An audio part whose payload is the empty string. *)
Definition silent : Part :=
  {| inlineData := Some {| mimeType := Some "audio/pcm"; data := Some "" |};
     text := None |}.

Definition heap : Heap :=
  fun r =>
    match r with
    | 0 => audioA
    | 1 => text1
    | 2 => audioB
    | 3 => text2
    | _ => silent
    end.

Definition connected_client : Client :=
  {| model := DEFAULT_LIVE_API_MODEL; session := Some 1; _status := connected |}.

(** Connected by the [open] callback while [connect] is still suspended. *)
Definition opened_early : Client :=
  {| model := DEFAULT_LIVE_API_MODEL; session := None; _status := connected |}.

Definition mic : Chunk := {| c_mimeType := "audio/pcm;rate=16000"; c_data := "AAAA" |}.
Definition frame : Chunk := {| c_mimeType := "image/jpeg"; c_data := "/9j/" |}.

Definition hello : Transcription := {| t_text := "hello"; isFinal := None |}.

Definition content_only (sc : LiveServerContent) : LiveServerMessage :=
  {| setupComplete := false; toolCall := None; toolCallCancellation := None;
     serverContent := Some sc |}.

Definition interruption : LiveServerContent :=
  {| interrupted := true; inputTranscription := Some hello;
     outputTranscription := None; modelTurn := None; turnComplete := true |}.

(** A transcription with a model turn of one audio part and one text part. *)
Definition spoken (turn_parts : list ref) : LiveServerContent :=
  {| interrupted := false; inputTranscription := Some hello;
     outputTranscription := None;
     modelTurn := Some {| parts := Some turn_parts |};
     turnComplete := false |}.

Definition setup_only : LiveServerMessage :=
  {| setupComplete := true; toolCall := None; toolCallCancellation := None;
     serverContent := None |}.

Definition closing : CloseEvent := {| ce_type := "close"; reason := "" |}.


End Sample.

(** ** Further observations on effects and runs *)

(** The events published other than log entries, in order. *)
Definition signals (effs : list Effect) : list Event :=
  filter (fun e => negb (String.eqb (event_name e) "log")) (emitted effs).

(** The session handle a transport call is made on; [live.connect] is
    made on the SDK client, not on a session. *)
Definition call_handle (c : TransportCall) : option Session :=
  match c with
  | LiveConnect _ _ => None
  | SessionClose h => Some h
  | SendClientContent h _ _ => Some h
  | SendRealtimeInput h _ => Some h
  | SendToolResponse h _ => Some h
  end.

(** The handles the transport resolved a [connect] with during a run. *)
Fixpoint resolved_handles (actions : list Action) : list Session :=
  match actions with
  | [] => []
  | ConnectResolves h :: rest => h :: resolved_handles rest
  | _ :: rest => resolved_handles rest
  end.

(** The model names passed to [live.connect]. *)
Fixpoint connect_models (calls : list TransportCall) : list string :=
  match calls with
  | [] => []
  | LiveConnect m _ :: rest => m :: connect_models rest
  | _ :: rest => connect_models rest
  end.

(** The message of the error event built in the [catch] block of
    [connect]: [e?.message || 'Failed to connect.']. *)
Definition failure_message (e : Thrown) : string :=
  match e with
  | Some m => if JsString.truthy m then m else "Failed to connect."
  | None => "Failed to connect."
  end.

(** ** The microphone feed of the control tray *)

(** [onData] of [ControlTray]: each recorded chunk goes out on its own. *)
Definition onData (base64 : string) (c : Client) : Client * list Effect :=
  sendRealtimeInput [{| c_mimeType := "audio/pcm;rate=16000"; c_data := base64 |}] c.

(** ** The tool editor and the tool catalogs *)

Inductive FunctionResponseScheduling : Type := INTERRUPT | WHEN_IDLE | SILENT.

(** [FunctionCall] of [lib/state], with the fields the catalog literals
    and the editor use; [P] is the type of the [parameters] value. *)
Record FunctionCall (P : Type) : Type := mkFunctionCall {
  fc_name : string;
  fc_description : option string;
  fc_parameters : option P;
  isEnabled : bool;
  scheduling : option FunctionResponseScheduling
}.

Arguments mkFunctionCall {P} _ _ _ _ _.
Arguments fc_name {P} _.
Arguments fc_description {P} _.
Arguments fc_parameters {P} _.
Arguments isEnabled {P} _.
Arguments scheduling {P} _.

(** The [useState] cells of [ToolEditorModal]. *)
Record Editor : Type := mkEditor {
  ed_name : string;
  ed_description : string;
  parametersStr : string;
  jsonError : option string;
  ed_scheduling : FunctionResponseScheduling
}.

Section ToolEditor.

(** The JSON values, with [JSON.stringify(v, null, 2)], [JSON.parse]
    ([None] when it throws) and the empty object literal. *)
Variable JSON : Type.
Variable stringify : JSON -> string.
Variable parse : string -> option JSON.
Variable empty_object : JSON.

(** Truthiness of a JSON value: [0], [false], [null] and the empty string
    are falsy, objects and arrays are truthy. *)
Variable truthy_value : JSON -> bool.

(** [tool.description || ''] *)
Definition description_or_empty (tool : FunctionCall JSON) : string :=
  match fc_description tool with
  | Some d => if JsString.truthy d then d else ""
  | None => ""
  end.

(** [tool.parameters || {}] *)
Definition parameters_or_empty (tool : FunctionCall JSON) : JSON :=
  match fc_parameters tool with
  | Some p => if truthy_value p then p else empty_object
  | None => empty_object
  end.

(** [tool.scheduling || FunctionResponseScheduling.INTERRUPT] *)
Definition scheduling_or_interrupt (tool : FunctionCall JSON) : FunctionResponseScheduling :=
  match scheduling tool with
  | Some s => s
  | None => INTERRUPT
  end.

(** The effect that runs when the [tool] prop changes. *)
Definition load (tool : FunctionCall JSON) : Editor :=
  {| ed_name := fc_name tool;
     ed_description := description_or_empty tool;
     parametersStr := stringify (parameters_or_empty tool);
     jsonError := None;
     ed_scheduling := scheduling_or_interrupt tool |}.

(** [setParametersStr] from the text area. *)
Definition edit_parameters (txt : string) (st : Editor) : Editor :=
  {| ed_name := ed_name st;
     ed_description := ed_description st;
     parametersStr := txt;
     jsonError := jsonError st;
     ed_scheduling := ed_scheduling st |}.

Definition set_jsonError (err : option string) (st : Editor) : Editor :=
  {| ed_name := ed_name st;
     ed_description := ed_description st;
     parametersStr := parametersStr st;
     jsonError := err;
     ed_scheduling := ed_scheduling st |}.

(** [handleSave]: the new editor state and the tool handed to [onSave],
    if [onSave] is called. *)
Definition handleSave (tool : FunctionCall JSON) (st : Editor)
  : Editor * option (FunctionCall JSON) :=
  match parse (parametersStr st) with
  | None => (set_jsonError (Some "Invalid JSON format for parameters.") st, None)
  | Some parsedParameters =>
      (set_jsonError None st,
       Some {| fc_name := ed_name st;
               fc_description := Some (ed_description st);
               fc_parameters := Some parsedParameters;
               isEnabled := isEnabled tool;
               scheduling := Some (ed_scheduling st) |})
  end.

End ToolEditor.

Arguments description_or_empty {JSON} _.
Arguments parameters_or_empty {JSON} _ _ _.
Arguments scheduling_or_interrupt {JSON} _.
Arguments load {JSON} _ _ _ _.
Arguments handleSave {JSON} _ _ _.

(** The JSON schema objects of the catalog literals. *)
Record ParameterSpec : Type := mkParameterSpec {
  ps_type : string;
  ps_description : string
}.

Record Schema : Type := mkSchema {
  s_type : option string;
  s_properties : option (list (string * ParameterSpec));
  s_required : option (list string)
}.

(** The literal [{}]. *)
Definition empty_schema : Schema :=
  {| s_type := None; s_properties := None; s_required := None |}.

(** A schema is an object, and every object is truthy. *)
Definition schema_truthy (s : Schema) : bool := true.

Definition tool (name description : string)
           (properties : list (string * ParameterSpec)) (required : option (list string))
  : FunctionCall Schema :=
  {| fc_name := name;
     fc_description := Some description;
     fc_parameters := Some {| s_type := Some "OBJECT";
                              s_properties := Some properties;
                              s_required := required |};
     isEnabled := true;
     scheduling := Some INTERRUPT |}.

(** [AVAILABLE_TOOLS] of [lib/tools.ts] *)
Definition AVAILABLE_TOOLS : list (FunctionCall Schema) :=
  [ tool "start_return"
      "Starts the return process for an item, collecting necessary details from the user."
      [ ("orderId", mkParameterSpec "STRING"
                      "The ID of the order containing the item to be returned.");
        ("itemName", mkParameterSpec "STRING"
                       "The name of the item the user wants to return.");
        ("reason", mkParameterSpec "STRING"
                     "The reason the user is returning the item.") ]
      (Some ["orderId"; "itemName"; "reason"]);
    tool "get_order_status"
      "Provides the current status of a user's order, searching by order ID or customer details."
      [ ("orderId", mkParameterSpec "STRING"
                      "The ID of the order to check. Ask for this first.");
        ("customerName", mkParameterSpec "STRING"
                           "The name of the customer, if order ID is not available.");
        ("customerEmail", mkParameterSpec "STRING"
                            "The email of the customer, if order ID is not available.") ]
      None;
    tool "speak_to_representative"
      "Escalates the conversation to a human customer support representative."
      [ ("reason", mkParameterSpec "STRING"
                     "A brief summary of the user's issue for the representative.") ]
      (Some ["reason"]) ].

(** [personalAssistantTools] of [lib/tools/personal-assistant.ts] *)
Definition personalAssistantTools : list (FunctionCall Schema) :=
  [ tool "create_calendar_event"
      "Creates a new event in the user's calendar."
      [ ("summary", mkParameterSpec "STRING" "The title or summary of the event.");
        ("location", mkParameterSpec "STRING" "The location of the event.");
        ("startTime", mkParameterSpec "STRING"
                        "The start time of the event in ISO 8601 format.");
        ("endTime", mkParameterSpec "STRING"
                      "The end time of the event in ISO 8601 format.") ]
      (Some ["summary"; "startTime"; "endTime"]);
    tool "send_email"
      "Sends an email to a specified recipient."
      [ ("recipient", mkParameterSpec "STRING" "The email address of the recipient.");
        ("subject", mkParameterSpec "STRING" "The subject line of the email.");
        ("body", mkParameterSpec "STRING" "The body content of the email.") ]
      (Some ["recipient"; "subject"; "body"]);
    tool "set_reminder"
      "Sets a reminder for the user."
      [ ("task", mkParameterSpec "STRING" "The task for the reminder.");
        ("time", mkParameterSpec "STRING"
                   "The time for the reminder in ISO 8601 format.") ]
      (Some ["task"; "time"]) ].

(** [navigationSystemTools] of [lib/tools/navigation-system.ts] *)
Definition navigationSystemTools : list (FunctionCall Schema) :=
  [ tool "find_route"
      "Finds a route to a specified destination."
      [ ("destination", mkParameterSpec "STRING" "The destination address or landmark.");
        ("modeOfTransport", mkParameterSpec "STRING"
           "The mode of transport (e.g., driving, walking, cycling).") ]
      (Some ["destination"]);
    tool "find_nearby_places"
      "Finds nearby places of a certain type."
      [ ("placeType", mkParameterSpec "STRING"
           "The type of place to search for (e.g., restaurant, gas station, park).");
        ("radius", mkParameterSpec "NUMBER" "The search radius in kilometers.") ]
      (Some ["placeType"]);
    tool "get_traffic_info"
      "Gets real-time traffic information for a specified location."
      [ ("location", mkParameterSpec "STRING"
           "The location to get traffic information for.") ]
      (Some ["location"]) ].

(** Every name under [required] is a key of [properties]. *)
Definition required_declared (t : FunctionCall Schema) : bool :=
  match fc_parameters t with
  | Some schema =>
      match s_required schema with
      | Some names =>
          forallb (fun n =>
                     existsb (fun kv => String.eqb (fst kv) n)
                             (match s_properties schema with Some ps => ps | None => [] end))
                  names
      | None => true
      end
  | None => true
  end.

(** ** Further sample inputs *)

Module Example.

(** A client whose session closed under it: disconnected, handle kept. *)
Definition closed_under : Client :=
  {| model := DEFAULT_LIVE_API_MODEL; session := Some 1; _status := disconnected |}.

Definition answer : LiveClientToolResponse :=
  {| functionResponses := Some ["{ id: 1, response: ok }"] |}.

(** A schema printer and parser that agree on one schema. *)
Definition print (s : Schema) : string := "{}".
Definition read_back (s : Schema) (txt : string) : option Schema := Some s.

(** A tool whose parameters are kept as JSON text. *)
Definition draft : FunctionCall string :=
  {| fc_name := "lookup"; fc_description := Some "Looks something up.";
     fc_parameters := Some "{ type: OBJECT }"; isEnabled := false;
     scheduling := Some SILENT |}.

(** JSON text stands for an object when it opens with a brace; the
    texts of numbers, booleans, null and strings do not. *)
Definition is_object_text (txt : string) : bool := String.prefix "{" txt.

(** A tool whose parameters are the number zero. *)
Definition zeroed : FunctionCall string :=
  {| fc_name := "lookup"; fc_description := Some "Looks something up.";
     fc_parameters := Some "0"; isEnabled := false;
     scheduling := Some SILENT |}.

(** JSON text that parses to itself unless it is the single character x. *)
Definition parse_text (txt : string) : option string :=
  if String.eqb txt "x" then None else Some txt.

Definition all_tools : list (FunctionCall Schema) :=
  AVAILABLE_TOOLS ++ personalAssistantTools ++ navigationSystemTools.

End Example.

(** ** Observations distribute over concatenation *)

Lemma emitted_app (xs ys : list Effect) :
  emitted (xs ++ ys) = emitted xs ++ emitted ys.
Proof.
  induction xs as [|[e|t|l] xs IH]; simpl; [reflexivity| |assumption|assumption].
  now rewrite IH.
Qed.

Lemma select_app (names : list string) (xs ys : list Effect) :
  select names (xs ++ ys) = select names xs ++ select names ys.
Proof. unfold select. now rewrite emitted_app, filter_app. Qed.

Lemma logs_app (xs ys : list Effect) : logs (xs ++ ys) = logs xs ++ logs ys.
Proof.
  induction xs as [|[e|t|l] xs IH]; simpl; [reflexivity| |assumption|assumption].
  destruct e; simpl; rewrite ?IH; reflexivity.
Qed.

Lemma transport_calls_app (xs ys : list Effect) :
  transport_calls (xs ++ ys) = transport_calls xs ++ transport_calls ys.
Proof.
  induction xs as [|[e|t|l] xs IH]; simpl; [reflexivity|assumption| |assumption].
  now rewrite IH.
Qed.

Lemma log_tags_app (xs ys : list Event) : log_tags (xs ++ ys) = log_tags xs ++ log_tags ys.
Proof.
  induction xs as [|e xs IH]; simpl; [reflexivity|].
  destruct (log_tag e); simpl; now rewrite IH.
Qed.

Lemma transport_calls_sends (h : Session) (chunks : list Chunk) :
  transport_calls (map (fun ch => Transport (SendRealtimeInput h ch)) chunks)
  = map (SendRealtimeInput h) chunks.
Proof. induction chunks as [|ch chunks IH]; simpl; [reflexivity | now rewrite IH]. Qed.

Lemma logs_sends (h : Session) (chunks : list Chunk) :
  logs (map (fun ch => Transport (SendRealtimeInput h ch)) chunks) = [].
Proof. induction chunks as [|ch chunks IH]; simpl; [reflexivity | assumption]. Qed.

(** ** The outbound gateway *)

(** C5: while status is not connected, send, sendRealtimeInput and
    sendToolResponse each leave the client as it was, make no transport
    call and publish exactly one event, the not-connected error; the
    methods are total, so none of them ends otherwise. *)
Theorem C5_outbound_skipped_when_not_connected :
  forall c : Client,
    _status c <> connected ->
    (forall ps tc,
        fst (send ps tc c) = c
        /\ transport_calls (snd (send ps tc c)) = []
        /\ snd (send ps tc c) = [Emit (EvError not_connected_event)])
    /\ (forall chunks,
        fst (sendRealtimeInput chunks c) = c
        /\ transport_calls (snd (sendRealtimeInput chunks c)) = []
        /\ snd (sendRealtimeInput chunks c) = [Emit (EvError not_connected_event)])
    /\ (forall r,
        fst (sendToolResponse r c) = c
        /\ transport_calls (snd (sendToolResponse r c)) = []
        /\ snd (sendToolResponse r c) = [Emit (EvError not_connected_event)]).
Proof.
  intros c Hc.
  unfold send, sendRealtimeInput, sendToolResponse.
  destruct (_status c); [contradiction| |];
    repeat split; reflexivity.
Qed.

Lemma C5_outbound_skipped_witness :
  _status (new_client None) <> connected
  /\ snd (send [1] None (new_client None)) = [Emit (EvError not_connected_event)].
Proof.
  split; [discriminate|].
  apply (C5_outbound_skipped_when_not_connected (new_client None)); discriminate.
Defined.

(** The classification loop computes two existence tests: its [break]
    only cuts the scan short. *)
Lemma scan_chunks_existsb (chunks : list Chunk) (a v : bool) :
  scan_chunks chunks a v
  = (a || existsb (fun ch => JsString.includes (c_mimeType ch) "audio") chunks,
     v || existsb (fun ch => JsString.includes (c_mimeType ch) "image") chunks).
Proof.
  revert a v; induction chunks as [|ch chunks IH]; intros a v; simpl.
  - now rewrite !orb_false_r.
  - destruct (JsString.includes (c_mimeType ch) "audio"),
             (JsString.includes (c_mimeType ch) "image"), a, v;
      simpl; rewrite ?IH; simpl; rewrite ?orb_true_r; reflexivity.
Qed.

Lemma classify_chunks_cases (chunks : list Chunk) :
  In (classify_chunks chunks) ["audio"; "video"; "audio + video"; "unknown"].
Proof.
  unfold classify_chunks.
  destruct (scan_chunks chunks false false) as [[|] [|]]; simpl; auto.
Qed.

(** C7, as amended: in every state with status connected and a session
    handle present, sendRealtimeInput makes exactly one transport send per
    chunk, in input order, then logs exactly one classification out of
    audio, video, audio + video and unknown; the empty list sends nothing
    and logs unknown; one audio-mime chunk and one image-mime chunk give
    exactly two sends and the log audio + video. *)
Theorem C7_realtime_input_with_session :
  forall (c : Client) (h : Session) (chunks : list Chunk),
    _status c = connected ->
    session c = Some h ->
    fst (sendRealtimeInput chunks c) = c
    /\ transport_calls (snd (sendRealtimeInput chunks c)) = map (SendRealtimeInput h) chunks
    /\ (exists cls,
           In cls ["audio"; "video"; "audio + video"; "unknown"]
           /\ snd (sendRealtimeInput chunks c)
              = map (fun ch => Transport (SendRealtimeInput h ch)) chunks
                ++ log "client.realtimeInput" (MsgText cls))
    /\ (chunks = [] ->
        snd (sendRealtimeInput chunks c) = log "client.realtimeInput" (MsgText "unknown"))
    /\ (forall a i,
           JsString.includes (c_mimeType a) "audio" = true ->
           JsString.includes (c_mimeType i) "image" = true ->
           chunks = [a; i] \/ chunks = [i; a] ->
           List.length (transport_calls (snd (sendRealtimeInput chunks c))) = 2
           /\ logs (snd (sendRealtimeInput chunks c))
              = [{| log_type := "client.realtimeInput";
                    log_message := MsgText "audio + video" |}]).
Proof.
  intros c h chunks Hst Hs.
  unfold sendRealtimeInput. rewrite Hst, Hs. cbn [fst snd].
  split; [reflexivity|].
  split.
  { rewrite transport_calls_app, transport_calls_sends. simpl. apply app_nil_r. }
  split.
  { exists (classify_chunks chunks). split; [apply classify_chunks_cases | reflexivity]. }
  split.
  { intros ->. reflexivity. }
  intros a i Ha Hi Hchunks.
  rewrite transport_calls_app, transport_calls_sends, logs_app, logs_sends.
  unfold classify_chunks. rewrite scan_chunks_existsb.
  destruct Hchunks as [-> | ->]; simpl; rewrite Ha, Hi, ?orb_true_r; simpl; auto.
Qed.

Lemma C7_realtime_input_witness :
  _status Sample.connected_client = connected
  /\ session Sample.connected_client = Some 1
  /\ transport_calls (snd (sendRealtimeInput [Sample.mic; Sample.frame] Sample.connected_client))
     = map (SendRealtimeInput 1) [Sample.mic; Sample.frame].
Proof.
  split; [reflexivity|]. split; [reflexivity|].
  apply (C7_realtime_input_with_session Sample.connected_client 1 [Sample.mic; Sample.frame]);
    reflexivity.
Defined.

(** C7 as stated fails: the open callback makes the status connected while
    connect is still suspended and no session is stored; in that state
    sendRealtimeInput sends no chunk and logs nothing. *)
Lemma C7_connected_without_session :
  run Sample.decode Sample.heap [CallConnect []; TransportOpen] (initial None)
  = Some ({| client := Sample.opened_early; awaiting := 1 |},
          [Transport (LiveConnect DEFAULT_LIVE_API_MODEL []); Emit EvOpen])
  /\ _status Sample.opened_early = connected
  /\ transport_calls (snd (sendRealtimeInput [Sample.mic] Sample.opened_early)) = []
  /\ logs (snd (sendRealtimeInput [Sample.mic] Sample.opened_early)) = []
  /\ snd (sendRealtimeInput [Sample.mic] Sample.opened_early)
     = [Emit (EvError not_connected_event)].
Proof. repeat split; reflexivity. Qed.

(** ** The close reason *)

Lemma drop_past_end (s : string) (n : nat) :
  JsString.drop (Nat.min n (String.length s)) s = JsString.drop n s.
Proof.
  revert n; induction s as [|ch s IH]; intros [|n]; simpl; try reflexivity.
  apply IH.
Qed.

Lemma slice_from_drop (s : string) (n : nat) :
  JsString.slice_from s (Z.of_nat n) = JsString.drop n s.
Proof.
  unfold JsString.slice_from.
  destruct (Z.ltb_spec (Z.of_nat n) 0) as [Hneg|_]; [lia|].
  rewrite <- Nat2Z.inj_min, Nat2Z.id. apply drop_past_end.
Qed.

Lemma substring_toLowerCase (s : string) (n m : nat) :
  substring n m (JsString.toLowerCase s) = JsString.toLowerCase (substring n m s).
Proof.
  revert n m; induction s as [|ch s IH]; intros [|n] [|m]; simpl; try reflexivity.
  - now rewrite IH.
  - apply IH.
  - apply IH.
Qed.

Lemma substring_shorter (s : string) (n m k : nat) :
  substring 0 m (substring n (m + k) s) = substring n m s.
Proof.
  revert n m; induction s as [|ch s IH]; intros [|n] [|m]; simpl; try reflexivity;
    try (destruct k; reflexivity).
  - now rewrite IH.
  - apply (IH n 0).
  - apply (IH n (S m)).
Qed.

(** A reason that holds the marker also holds [error] once lowered, so the
    outer test of [onClose] never hides a marker. *)
Lemma marker_passes_outer_test (raw : string) (i : nat) :
  String.index 0 "ERROR]" raw = Some i ->
  JsString.includes (JsString.toLowerCase raw) "error" = true.
Proof.
  intros Hi. apply index_correct1 in Hi. simpl String.length in Hi.
  unfold JsString.includes.
  destruct (String.index 0 "error" (JsString.toLowerCase raw)) eqn:Hlow; [reflexivity|].
  exfalso.
  apply (index_correct3 0 i "error" (JsString.toLowerCase raw) Hlow);
    [discriminate | lia |].
  simpl String.length. rewrite substring_toLowerCase.
  rewrite <- (substring_shorter raw i 5 1). simpl Nat.add. rewrite Hi. reflexivity.
Qed.

(** What [onClose] extracts: with the marker first found at a position
    [i > 0], the text from position [i + 6 + 1] on; with the marker absent
    or found at position [0], the raw reason. *)
Lemma close_reason_cases (raw : string) :
  match String.index 0 "ERROR]" raw with
  | Some (S i) =>
      substring (S i) 6 raw = "ERROR]"
      /\ close_reason raw = JsString.drop 1 (JsString.drop 6 (JsString.drop (S i) raw))
  | Some O => close_reason raw = raw
  | None => close_reason raw = raw
  end.
Proof.
  unfold close_reason, JsString.indexOf.
  destruct (String.index 0 "ERROR]" raw) as [[|i]|] eqn:Hi.
  - destruct (JsString.includes _ _); reflexivity.
  - rewrite (marker_passes_outer_test raw (S i) Hi).
    split; [exact (index_correct1 _ _ _ _ Hi)|].
    destruct (Z.ltb_spec 0 (Z.of_nat (S i))) as [_|Hle]; [|lia].
    simpl String.length.
    replace (Z.of_nat (S i) + Z.of_nat 6 + 1)%Z with (Z.of_nat (S i + 7)) by lia.
    rewrite slice_from_drop.
    clear Hi. revert i; induction raw as [|ch raw IH]; intros i.
    + reflexivity.
    + destruct i as [|i].
      * destruct raw as [|c1 [|c2 [|c3 [|c4 [|c5 [|c6 [|c7 raw]]]]]]]; reflexivity.
      * change (JsString.drop (S (S i) + 7) (String ch raw)) with (JsString.drop (S i + 7) raw).
        change (JsString.drop (S (S i)) (String ch raw)) with (JsString.drop (S i) raw).
        apply IH.
  - destruct (JsString.includes _ _); reflexivity.
Qed.

(** C8 fails on the code when the marker opens the reason: [onClose] asks
    for a marker position above [0], so a reason that starts with the
    marker is logged verbatim, marker included, where the claim gives the
    text after the marker and one delimiter. *)
Theorem C8_marker_at_start_logged_verbatim :
  JsString.indexOf "ERROR] quota exceeded" "ERROR]" = 0%Z
  /\ close_reason "ERROR] quota exceeded" = "ERROR] quota exceeded"
  /\ close_reason "[ERROR] quota exceeded" = "quota exceeded"
  /\ logs (snd (onClose {| ce_type := "close"; reason := "ERROR] quota exceeded" |}
                        Sample.connected_client))
     = [{| log_type := "server.close";
           log_message := MsgText "disconnected with reason: ERROR] quota exceeded" |}].
Proof. repeat split; reflexivity. Qed.

(** ** The audio demultiplexer *)

(** Removing the audio parts by reference leaves exactly the parts that
    fail the audio test, in their original order: [difference] after
    [filter] is the other half of a stable partition. *)
Lemma difference_filter (f : ref -> bool) (ps : list ref) :
  difference ps (filter f ps) = filter (fun p => negb (f p)) ps.
Proof.
  unfold difference. apply filter_ext_in. intros x Hx. f_equal.
  destruct (f x) eqn:Hfx.
  - apply existsb_exists. exists x. split; [|apply Nat.eqb_refl].
    apply filter_In. now split.
  - apply not_true_is_false. intros Hex.
    apply existsb_exists in Hex. destruct Hex as [y [Hy Hxy]].
    apply Nat.eqb_eq in Hxy. subst y.
    apply filter_In in Hy. destruct Hy as [_ Hy]. congruence.
Qed.

Section DispatcherFacts.

Variable decode : string -> ArrayBuffer.
Variable heap : Heap.

(** The demultiplexer as a stable partition by the audio test. *)
Lemma onModelTurn_partition (message : LiveServerMessage) (turn : Content) :
  onModelTurn decode heap message turn
  = flat_map (emit_audio decode)
             (map (payload_of heap) (filter (is_audio_part heap) (parts_or_empty turn)))
    ++ match filter (fun p => negb (is_audio_part heap p)) (parts_or_empty turn) with
       | [] => []
       | others =>
           Emit (EvContent (model_turn_content others))
           :: log "server.content" (MsgServerMessage message)
       end.
Proof.
  unfold onModelTurn, parts_or_empty.
  rewrite difference_filter. f_equal.
  destruct (filter _ _); reflexivity.
Qed.

(** The events of the decoding loop: an audio event and its log entry
    for each payload that is present and not empty, and nothing else. *)
Lemma emitted_audio_loop (ps : list ref) :
  emitted (flat_map (emit_audio decode) (map (payload_of heap) ps))
  = flat_map (fun p =>
                let data := decode (payload_string heap p) in
                [EvAudio data;
                 EvLog {| log_type := "server.audio";
                          log_message :=
                            MsgText ("buffer (" ++ JsString.of_nat (byteLength data) ++ ")") |}])
             (filter (has_payload heap) ps).
Proof.
  induction ps as [|p ps IH]; [reflexivity|].
  cbn [map flat_map filter]. rewrite emitted_app, IH. clear IH.
  assert (Hs : payload_of heap p = Some (payload_string heap p)
               \/ payload_of heap p = None)
    by (unfold payload_string; destruct (payload_of heap p); auto).
  unfold has_payload at 2.
  destruct Hs as [Hs | Hs]; rewrite Hs; [|reflexivity].
  unfold emit_audio.
  destruct (JsString.truthy (payload_string heap p)); reflexivity.
Qed.

Lemma select_audio_loop (ps : list ref) :
  select ["audio"] (flat_map (emit_audio decode) (map (payload_of heap) ps))
  = map (fun p => EvAudio (decode (payload_string heap p))) (filter (has_payload heap) ps).
Proof.
  unfold select. rewrite emitted_audio_loop.
  induction (filter (has_payload heap) ps) as [|p qs IH]; simpl in *;
    [reflexivity | now rewrite IH].
Qed.

Lemma select_other_loop (names : list string) (ps : list ref) :
  existsb (String.eqb "audio") names = false ->
  existsb (String.eqb "log") names = false ->
  select names (flat_map (emit_audio decode) (map (payload_of heap) ps)) = [].
Proof.
  intros Ha Hl. unfold select. rewrite emitted_audio_loop.
  induction (filter (has_payload heap) ps) as [|p qs IH]; [reflexivity|].
  cbn [flat_map app filter event_name] in *. cbv zeta in *.
  cbn [flat_map app filter event_name] in *. now rewrite Ha, Hl.
Qed.

Lemma filter_both (f g : ref -> bool) (ps : list ref) :
  filter g (filter f ps) = filter (fun p => f p && g p) ps.
Proof.
  induction ps as [|p ps IH]; [reflexivity|].
  simpl. destruct (f p); simpl; [destruct (g p)|]; now rewrite IH.
Qed.

End DispatcherFacts.

Section Demultiplexer.

Variable decode : string -> ArrayBuffer.
Variable heap : Heap.

(** C10: an audio part whose payload is absent or empty goes through the
    decoding loop without any effect; the audio events of a model turn
    are the decodings of the payloads of the audio parts that have a
    non-empty payload, in order, so there are as many audio events as
    such parts; the demultiplexer is a total function, so a missing
    payload never stops the dispatch. *)
Theorem C10_audio_part_without_payload_skipped :
  forall (message : LiveServerMessage) (turn : Content),
    (forall p, has_payload heap p = false -> emit_audio decode (payload_of heap p) = [])
    /\ select ["audio"] (onModelTurn decode heap message turn)
       = map (fun p => EvAudio (decode (payload_string heap p)))
             (filter (fun p => is_audio_part heap p && has_payload heap p)
                     (parts_or_empty turn))
    /\ List.length (select ["audio"] (onModelTurn decode heap message turn))
       = List.length (filter (fun p => is_audio_part heap p && has_payload heap p)
                             (parts_or_empty turn)).
Proof.
  intros message turn.
  assert (Haudio :
            select ["audio"] (onModelTurn decode heap message turn)
            = map (fun p => EvAudio (decode (payload_string heap p)))
                  (filter (fun p => is_audio_part heap p && has_payload heap p)
                          (parts_or_empty turn))).
  { rewrite onModelTurn_partition, select_app, select_audio_loop, filter_both.
    destruct (filter (fun p => negb (is_audio_part heap p)) (parts_or_empty turn));
      apply app_nil_r. }
  split; [|split].
  - intros p Hp. unfold has_payload in Hp. unfold emit_audio.
    destruct (payload_of heap p) as [s|]; [now rewrite Hp | reflexivity].
  - exact Haudio.
  - rewrite Haudio. apply length_map.
Qed.

(** C4, as amended: for model-turn parts [audioA, text1, audioB, text2]
    where audioA and audioB pass the audio test and carry a non-empty
    payload and text1 and text2 fail the audio test, the demultiplexer
    publishes exactly two audio events, the decoding of audioA's payload
    and then that of audioB's, and exactly one content event, which
    carries [text1, text2] in that order; and when every part of a model
    turn passes the audio test, no content event is published. *)
Theorem C4_demultiplexer_partition :
  forall (message : LiveServerMessage) (turn : Content),
    (forall audioA text1 audioB text2 payloadA payloadB,
        parts turn = Some [audioA; text1; audioB; text2] ->
        is_audio_part heap audioA = true ->
        is_audio_part heap audioB = true ->
        is_audio_part heap text1 = false ->
        is_audio_part heap text2 = false ->
        payload_of heap audioA = Some payloadA ->
        JsString.truthy payloadA = true ->
        payload_of heap audioB = Some payloadB ->
        JsString.truthy payloadB = true ->
        select ["audio"] (onModelTurn decode heap message turn)
        = [EvAudio (decode payloadA); EvAudio (decode payloadB)]
        /\ select ["content"] (onModelTurn decode heap message turn)
           = [EvContent (model_turn_content [text1; text2])])
    /\ ((forall p, In p (parts_or_empty turn) -> is_audio_part heap p = true) ->
        select ["content"] (onModelTurn decode heap message turn) = []).
Proof.
  intros message turn. split.
  - intros a t1 b t2 pa pb Hparts Ha Hb Ht1 Ht2 Hpa Hta Hpb Htb.
    rewrite onModelTurn_partition. unfold parts_or_empty. rewrite Hparts.
    cbn [filter]. rewrite Ha, Hb, Ht1, Ht2. cbn [negb map flat_map].
    rewrite Hpa, Hpb. unfold emit_audio. rewrite Hta, Htb.
    split; reflexivity.
  - intros Hall.
    rewrite onModelTurn_partition, select_app.
    rewrite select_other_loop by reflexivity.
    replace (filter (fun p => negb (is_audio_part heap p)) (parts_or_empty turn))
      with (@nil ref); [reflexivity|].
    symmetry. induction (parts_or_empty turn) as [|p ps IH]; [reflexivity|].
    simpl. rewrite (Hall p) by (left; reflexivity). simpl.
    apply IH. intros q Hq. apply Hall. now right.
Qed.

End Demultiplexer.

Lemma C10_audio_part_without_payload_witness :
  has_payload Sample.heap 4 = false
  /\ emit_audio Sample.decode (payload_of Sample.heap 4) = [].
Proof.
  split; [reflexivity|].
  apply (C10_audio_part_without_payload_skipped Sample.decode Sample.heap
           (Sample.content_only Sample.interruption) {| parts := None |}).
  reflexivity.
Defined.

Lemma C4_demultiplexer_partition_witness :
  (is_audio_part Sample.heap 0 = true /\ is_audio_part Sample.heap 2 = true)
  /\ (is_audio_part Sample.heap 1 = false /\ is_audio_part Sample.heap 3 = false)
  /\ (payload_of Sample.heap 0 = Some "AAAA" /\ payload_of Sample.heap 2 = Some "AQID")
  /\ select ["audio"]
       (onModelTurn Sample.decode Sample.heap (Sample.content_only Sample.interruption)
                    {| parts := Some [0; 1; 2; 3] |})
     = [EvAudio (Sample.decode "AAAA"); EvAudio (Sample.decode "AQID")]
  /\ select ["content"]
       (onModelTurn Sample.decode Sample.heap (Sample.content_only Sample.interruption)
                    {| parts := Some [0; 1; 2; 3] |})
     = [EvContent (model_turn_content [1; 3])].
Proof.
  split; [split; reflexivity|]. split; [split; reflexivity|]. split; [split; reflexivity|].
  apply (proj1 (C4_demultiplexer_partition Sample.decode Sample.heap
                  (Sample.content_only Sample.interruption)
                  {| parts := Some [0; 1; 2; 3] |})
               0 1 2 3 "AAAA" "AQID");
    reflexivity.
Defined.

(** C4 as stated fails: with [audioA] an audio part whose payload is the
    empty string, the parts [audioA, text1, audioB, text2] give a single
    audio event, audioB's. *)
Lemma C4_empty_payload_gives_one_audio_event :
  is_audio_part Sample.heap 4 = true
  /\ is_audio_part Sample.heap 2 = true
  /\ is_audio_part Sample.heap 1 = false
  /\ is_audio_part Sample.heap 3 = false
  /\ select ["audio"]
       (onModelTurn Sample.decode Sample.heap (Sample.content_only Sample.interruption)
                    {| parts := Some [4; 1; 2; 3] |})
     = [EvAudio (Sample.decode "AQID")].
Proof. repeat split; reflexivity. Qed.

(** ** The message dispatcher *)

Section DispatcherClaims.

Variable decode : string -> ArrayBuffer.
Variable heap : Heap.

(** A message without [setupComplete], [toolCall] and
    [toolCallCancellation] reaches the server-content block. *)
Lemma onMessage_reaches_content (m : LiveServerMessage) (sc : LiveServerContent) :
  setupComplete m = false ->
  toolCall m = None ->
  toolCallCancellation m = None ->
  serverContent m = Some sc ->
  onMessage decode heap m = onServerContent decode heap m sc.
Proof. intros H1 H2 H3 H4. unfold onMessage. now rewrite H1, H2, H3, H4. Qed.

(** The demultiplexer publishes audio, content and log events only. *)
Lemma select_model_turn_other (names : list string) (m : LiveServerMessage)
      (turn : Content) :
  existsb (String.eqb "audio") names = false ->
  existsb (String.eqb "content") names = false ->
  existsb (String.eqb "log") names = false ->
  select names (onModelTurn decode heap m turn) = [].
Proof.
  intros Ha Hc Hl.
  rewrite onModelTurn_partition, select_app, select_other_loop by assumption.
  destruct (filter _ (parts_or_empty turn)); [reflexivity|].
  unfold select. cbn [log emitted filter event_name]. now rewrite Hc, Hl.
Qed.

(** C2: for every inbound serverContent message, that is one without a
    setupComplete, toolCall or toolCallCancellation field, whose
    serverContent has interrupted set, the dispatcher publishes exactly
    one log entry and then one interrupted event and nothing else,
    whatever other serverContent signals are present. *)
Theorem C2_interrupted_short_circuits :
  forall (m : LiveServerMessage) (sc : LiveServerContent),
    setupComplete m = false ->
    toolCall m = None ->
    toolCallCancellation m = None ->
    serverContent m = Some sc ->
    interrupted sc = true ->
    onMessage decode heap m
    = [Emit (EvLog {| log_type := "receive.serverContent";
                      log_message := MsgText "interrupted" |});
       Emit EvInterrupted]
    /\ List.length (logs (onMessage decode heap m)) = 1
    /\ select ["interrupted"] (onMessage decode heap m) = [EvInterrupted]
    /\ select ["inputTranscription"; "outputTranscription"; "audio"; "content";
               "turncomplete"] (onMessage decode heap m) = [].
Proof.
  intros m sc H1 H2 H3 H4 Hint.
  rewrite (onMessage_reaches_content m sc H1 H2 H3 H4).
  unfold onServerContent. rewrite Hint.
  repeat split; reflexivity.
Qed.

(** C3, as amended: for every inbound message that has no setupComplete,
    toolCall or toolCallCancellation field and carries a serverContent
    without the interrupted signal, with an inputTranscription and with a
    modelTurn whose parts are one audio part with a non-empty payload and
    one non-audio part, the inputTranscription, audio and content events
    the dispatcher publishes are, in this order: one inputTranscription
    event, one audio event with the decoded payload, one content event
    whose model-turn parts are the non-audio part alone. *)
Theorem C3_transcription_then_audio_then_content :
  forall (m : LiveServerMessage) (sc : LiveServerContent) (t : Transcription)
         (turn : Content) (audioPart otherPart : ref) (payload : string),
    setupComplete m = false ->
    toolCall m = None ->
    toolCallCancellation m = None ->
    serverContent m = Some sc ->
    interrupted sc = false ->
    inputTranscription sc = Some t ->
    modelTurn sc = Some turn ->
    parts turn = Some [audioPart; otherPart] \/ parts turn = Some [otherPart; audioPart] ->
    is_audio_part heap audioPart = true ->
    payload_of heap audioPart = Some payload ->
    JsString.truthy payload = true ->
    is_audio_part heap otherPart = false ->
    select ["inputTranscription"; "audio"; "content"] (onMessage decode heap m)
    = [EvInputTranscription (t_text t) (final_or_false t);
       EvAudio (decode payload);
       EvContent (model_turn_content [otherPart])].
Proof.
  intros m sc t turn a x payload H1 H2 H3 H4 Hint Hin Hturn Hparts Ha Hp Htruthy Hx.
  rewrite (onMessage_reaches_content m sc H1 H2 H3 H4).
  unfold onServerContent. rewrite Hint, Hin, Hturn.
  rewrite !select_app.
  replace (select ["inputTranscription"; "audio"; "content"]
             match outputTranscription sc with
             | Some t0 =>
                 Emit (EvOutputTranscription (t_text t0) (final_or_false t0))
                 :: log "server.outputTranscription" (MsgText (t_text t0))
             | None => []
             end)
    with (@nil Event) by (destruct (outputTranscription sc); reflexivity).
  replace (select ["inputTranscription"; "audio"; "content"]
             (if turnComplete sc
              then log "server.send" (MsgText "turnComplete") ++ [Emit EvTurnComplete]
              else []))
    with (@nil Event) by (destruct (turnComplete sc); reflexivity).
  rewrite onModelTurn_partition. unfold parts_or_empty.
  destruct Hparts as [Hparts | Hparts]; rewrite Hparts;
    cbn [filter]; rewrite Ha, Hx; cbn [negb map flat_map];
    rewrite Hp; unfold emit_audio; rewrite Htruthy; reflexivity.
Qed.

(** The transcription events of a message whose transcription record
    has no isFinal field: none, or exactly one with isFinal false. *)
Lemma select_input_transcription (m : LiveServerMessage) (sc : LiveServerContent)
      (t : Transcription) :
  serverContent m = Some sc ->
  inputTranscription sc = Some t ->
  isFinal t = None ->
  select ["inputTranscription"] (onMessage decode heap m)
  = if setupComplete m then []
    else match toolCall m, toolCallCancellation m with
         | None, None =>
             if interrupted sc then [] else [EvInputTranscription (t_text t) false]
         | _, _ => []
         end.
Proof.
  intros Hsc Hin Hfinal. unfold onMessage. rewrite Hsc.
  destruct (setupComplete m); [reflexivity|].
  destruct (toolCall m); [reflexivity|].
  destruct (toolCallCancellation m); [reflexivity|].
  unfold onServerContent. rewrite Hin.
  destruct (interrupted sc); [reflexivity|].
  rewrite !select_app.
  unfold final_or_false at 1. rewrite Hfinal.
  destruct (outputTranscription sc), (modelTurn sc), (turnComplete sc);
    rewrite ?select_model_turn_other by reflexivity; reflexivity.
Qed.

Lemma select_output_transcription (m : LiveServerMessage) (sc : LiveServerContent)
      (t : Transcription) :
  serverContent m = Some sc ->
  outputTranscription sc = Some t ->
  isFinal t = None ->
  select ["outputTranscription"] (onMessage decode heap m)
  = if setupComplete m then []
    else match toolCall m, toolCallCancellation m with
         | None, None =>
             if interrupted sc then [] else [EvOutputTranscription (t_text t) false]
         | _, _ => []
         end.
Proof.
  intros Hsc Hout Hfinal. unfold onMessage. rewrite Hsc.
  destruct (setupComplete m); [reflexivity|].
  destruct (toolCall m); [reflexivity|].
  destruct (toolCallCancellation m); [reflexivity|].
  unfold onServerContent. rewrite Hout.
  destruct (interrupted sc); [reflexivity|].
  rewrite !select_app.
  unfold final_or_false at 2. rewrite Hfinal.
  destruct (inputTranscription sc), (modelTurn sc), (turnComplete sc);
    rewrite ?select_model_turn_other by reflexivity; reflexivity.
Qed.

Lemma in_emitted_select (name : string) (e : Event) (effs : list Effect) :
  In e (emitted effs) -> event_name e = name -> In e (select [name] effs).
Proof.
  intros Hin Hname. unfold select. apply filter_In. split; [assumption|].
  simpl. now rewrite Hname, String.eqb_refl.
Qed.

(** C9: when the inputTranscription record of a serverContent message
    has no isFinal field, every inputTranscription event published for
    the message carries isFinal = false, and the dispatcher publishes
    exactly one such event, with the record's text, whenever it reaches
    the signal; likewise for outputTranscription. *)
Theorem C9_missing_isFinal_is_false :
  forall (m : LiveServerMessage) (sc : LiveServerContent) (t : Transcription),
    serverContent m = Some sc ->
    isFinal t = None ->
    (inputTranscription sc = Some t ->
     (forall txt final,
         In (EvInputTranscription txt final) (emitted (onMessage decode heap m)) ->
         final = false)
     /\ (setupComplete m = false -> toolCall m = None ->
         toolCallCancellation m = None -> interrupted sc = false ->
         select ["inputTranscription"] (onMessage decode heap m)
         = [EvInputTranscription (t_text t) false]))
    /\ (outputTranscription sc = Some t ->
        (forall txt final,
            In (EvOutputTranscription txt final) (emitted (onMessage decode heap m)) ->
            final = false)
        /\ (setupComplete m = false -> toolCall m = None ->
            toolCallCancellation m = None -> interrupted sc = false ->
            select ["outputTranscription"] (onMessage decode heap m)
            = [EvOutputTranscription (t_text t) false])).
Proof.
  intros m sc t Hsc Hfinal. split.
  - intros Hin.
    pose proof (select_input_transcription m sc t Hsc Hin Hfinal) as Hsel.
    split.
    + intros txt final Hemitted.
      apply (in_emitted_select "inputTranscription") in Hemitted; [|reflexivity].
      rewrite Hsel in Hemitted.
      destruct (setupComplete m), (toolCall m), (toolCallCancellation m),
               (interrupted sc); simpl in Hemitted;
        try contradiction.
      destruct Hemitted as [Heq|[]]. now inversion Heq.
    + intros H1 H2 H3 H4. now rewrite Hsel, H1, H2, H3, H4.
  - intros Hout.
    pose proof (select_output_transcription m sc t Hsc Hout Hfinal) as Hsel.
    split.
    + intros txt final Hemitted.
      apply (in_emitted_select "outputTranscription") in Hemitted; [|reflexivity].
      rewrite Hsel in Hemitted.
      destruct (setupComplete m), (toolCall m), (toolCallCancellation m),
               (interrupted sc); simpl in Hemitted;
        try contradiction.
      destruct Hemitted as [Heq|[]]. now inversion Heq.
    + intros H1 H2 H3 H4. now rewrite Hsel, H1, H2, H3, H4.
Qed.

End DispatcherClaims.

Lemma C2_interrupted_short_circuits_witness :
  interrupted Sample.interruption = true
  /\ onMessage Sample.decode Sample.heap (Sample.content_only Sample.interruption)
     = [Emit (EvLog {| log_type := "receive.serverContent";
                       log_message := MsgText "interrupted" |});
        Emit EvInterrupted].
Proof.
  split; [reflexivity|].
  apply (C2_interrupted_short_circuits Sample.decode Sample.heap
           (Sample.content_only Sample.interruption) Sample.interruption);
    reflexivity.
Defined.

Lemma C3_transcription_then_audio_then_content_witness :
  is_audio_part Sample.heap 0 = true
  /\ payload_of Sample.heap 0 = Some "AAAA"
  /\ is_audio_part Sample.heap 1 = false
  /\ select ["inputTranscription"; "audio"; "content"]
       (onMessage Sample.decode Sample.heap (Sample.content_only (Sample.spoken [0; 1])))
     = [EvInputTranscription "hello" false;
        EvAudio (Sample.decode "AAAA");
        EvContent (model_turn_content [1])].
Proof.
  split; [reflexivity|]. split; [reflexivity|]. split; [reflexivity|].
  apply (C3_transcription_then_audio_then_content Sample.decode Sample.heap
           (Sample.content_only (Sample.spoken [0; 1])) (Sample.spoken [0; 1])
           Sample.hello {| parts := Some [0; 1] |} 0 1 "AAAA");
    try reflexivity.
  left; reflexivity.
Defined.

(** C3 as stated fails twice over: when the audio part's payload is the
    empty string no audio event is published, and when the message also
    has a setupComplete field none of the three events is published. *)
Lemma C3_no_audio_event_or_no_event_at_all :
  (is_audio_part Sample.heap 4 = true
   /\ is_audio_part Sample.heap 1 = false
   /\ select ["inputTranscription"; "audio"; "content"]
        (onMessage Sample.decode Sample.heap (Sample.content_only (Sample.spoken [4; 1])))
      = [EvInputTranscription "hello" false; EvContent (model_turn_content [1])])
  /\ select ["inputTranscription"; "audio"; "content"]
       (onMessage Sample.decode Sample.heap
          {| setupComplete := true; toolCall := None; toolCallCancellation := None;
             serverContent := Some (Sample.spoken [0; 1]) |})
     = [].
Proof. repeat split; reflexivity. Qed.

Lemma C9_missing_isFinal_witness :
  isFinal Sample.hello = None
  /\ select ["inputTranscription"]
       (onMessage Sample.decode Sample.heap (Sample.content_only (Sample.spoken [0; 1])))
     = [EvInputTranscription "hello" false].
Proof.
  split; [reflexivity|].
  apply (C9_missing_isFinal_is_false Sample.decode Sample.heap
           (Sample.content_only (Sample.spoken [0; 1])) (Sample.spoken [0; 1])
           Sample.hello);
    reflexivity.
Defined.

(** ** The log channel *)

Lemma log_tags_audio_loop (decode : string -> ArrayBuffer) (payloads : list (option string)) :
  map log_type (logs (flat_map (emit_audio decode) payloads))
  = log_tags (emitted (flat_map (emit_audio decode) payloads)).
Proof.
  induction payloads as [|[s|] payloads IH]; [reflexivity| |exact IH].
  cbn [flat_map]. rewrite logs_app, emitted_app, map_app, log_tags_app, IH.
  f_equal. unfold emit_audio. destruct (JsString.truthy s); reflexivity.
Qed.

Lemma log_tags_onMessage (decode : string -> ArrayBuffer) (heap : Heap)
      (m : LiveServerMessage) :
  map log_type (logs (onMessage decode heap m))
  = log_tags (emitted (onMessage decode heap m)).
Proof.
  unfold onMessage.
  destruct (setupComplete m); [reflexivity|].
  destruct (toolCall m); [reflexivity|].
  destruct (toolCallCancellation m); [reflexivity|].
  destruct (serverContent m) as [sc|]; [|reflexivity].
  unfold onServerContent.
  destruct (interrupted sc); [reflexivity|].
  rewrite !logs_app, !emitted_app, !map_app, !log_tags_app.
  f_equal; [destruct (inputTranscription sc); reflexivity|].
  f_equal; [destruct (outputTranscription sc); reflexivity|].
  f_equal; [|destruct (turnComplete sc); reflexivity].
  destruct (modelTurn sc) as [turn|]; [|reflexivity].
  rewrite onModelTurn_partition.
  rewrite logs_app, emitted_app, map_app, log_tags_app, log_tags_audio_loop.
  f_equal. destruct (filter _ (parts_or_empty turn)); reflexivity.
Qed.

(** C6, as amended: the log entries the dispatcher publishes for a message
    are, in order, exactly one per toolcall, toolcallcancellation,
    interrupted, inputTranscription, outputTranscription, audio, content
    and turncomplete event it publishes, each with that signal's type tag;
    disconnect, the transport error callback, the transport close callback
    and a failed connect each publish exactly one log entry; and send,
    sendRealtimeInput and sendToolResponse each publish exactly one log
    entry when the status is connected and a session handle is present. *)
Theorem C6_one_log_entry_per_logged_action :
  (forall decode heap m,
      map log_type (logs (onMessage decode heap m))
      = log_tags (emitted (onMessage decode heap m)))
  /\ (forall c, List.length (logs (snd (fst (disconnect c)))) = 1)
  /\ (forall e c, List.length (logs (snd (onError e c))) = 1)
  /\ (forall e c, List.length (logs (snd (onClose e c))) = 1)
  /\ (forall e c, List.length (logs (snd (fst (connect_rejected e c)))) = 1)
  /\ (forall c h,
         _status c = connected ->
         session c = Some h ->
         (forall ps tc, List.length (logs (snd (send ps tc c))) = 1)
         /\ (forall chunks, List.length (logs (snd (sendRealtimeInput chunks c))) = 1)
         /\ (forall r, List.length (logs (snd (sendToolResponse r c))) = 1)).
Proof.
  split; [exact log_tags_onMessage|].
  split; [intros c; unfold disconnect; destruct (session c); reflexivity|].
  split; [reflexivity|].
  split; [reflexivity|].
  split; [reflexivity|].
  intros c h Hst Hs. unfold send, sendRealtimeInput, sendToolResponse.
  rewrite Hst, Hs. cbn [snd].
  split; [reflexivity|]. split.
  - intros chunks. now rewrite logs_app, logs_sends.
  - intros r. destruct (functionResponses r) as [[|x xs]|]; reflexivity.
Qed.

Lemma C6_one_log_entry_witness :
  _status Sample.connected_client = connected
  /\ session Sample.connected_client = Some 1
  /\ List.length (logs (snd (sendRealtimeInput [Sample.mic; Sample.frame]
                                               Sample.connected_client))) = 1.
Proof.
  split; [reflexivity|]. split; [reflexivity|].
  apply (proj2 (proj2 (proj2 (proj2 (proj2 C6_one_log_entry_per_logged_action))))
           Sample.connected_client 1);
    reflexivity.
Defined.

(** C6 as stated fails: a successful connect takes the status from
    disconnected through connecting to connected, with the open callback
    in between, and publishes no log entry; an outbound operation turned
    away as not connected publishes none either, and neither does the
    dispatch of a setupComplete message. *)
Lemma C6_connecting_and_opening_log_nothing :
  option_map
    (fun r => (_status (client (fst r)), session (client (fst r)), logs (snd r)))
    (run Sample.decode Sample.heap [CallConnect []; TransportOpen; ConnectResolves 1]
         (initial None))
  = Some (connected, Some 1, [])
  /\ _status (fst (onOpen (new_client None))) = connected
  /\ logs (snd (onOpen (new_client None))) = []
  /\ logs (snd (send [1] None (new_client None))) = []
  /\ onMessage Sample.decode Sample.heap Sample.setup_only = [Emit EvSetupComplete].
Proof. repeat split; reflexivity. Qed.

(** ** The session handle *)

(** The outbound operations never change the client's fields. *)
Lemma send_keeps_state (ps : list ref) (tc : option bool) (c : Client) :
  fst (send ps tc c) = c.
Proof. unfold send. destruct (_status c), (session c); reflexivity. Qed.

Lemma sendRealtimeInput_keeps_state (chunks : list Chunk) (c : Client) :
  fst (sendRealtimeInput chunks c) = c.
Proof. unfold sendRealtimeInput. destruct (_status c), (session c); reflexivity. Qed.

Lemma sendToolResponse_keeps_state (r : LiveClientToolResponse) (c : Client) :
  fst (sendToolResponse r c) = c.
Proof. unfold sendToolResponse. destruct (_status c), (session c); reflexivity. Qed.






(** ** More on the dispatcher *)

Lemma signals_app (xs ys : list Effect) : signals (xs ++ ys) = signals xs ++ signals ys.
Proof. unfold signals. now rewrite emitted_app, filter_app. Qed.

Lemma transport_calls_audio_loop (decode : string -> ArrayBuffer)
      (payloads : list (option string)) :
  transport_calls (flat_map (emit_audio decode) payloads) = [].
Proof.
  induction payloads as [|[s|] payloads IH]; [reflexivity| |exact IH].
  cbn [flat_map]. rewrite transport_calls_app, IH.
  unfold emit_audio. destruct (JsString.truthy s); reflexivity.
Qed.

Section DispatcherExtras.

Variable decode : string -> ArrayBuffer.
Variable heap : Heap.

Lemma signals_audio_loop (ps : list ref) :
  signals (flat_map (emit_audio decode) (map (payload_of heap) ps))
  = map (fun p => EvAudio (decode (payload_string heap p))) (filter (has_payload heap) ps).
Proof.
  unfold signals. rewrite emitted_audio_loop.
  induction (filter (has_payload heap) ps) as [|p qs IH]; simpl in *;
    [reflexivity | now rewrite IH].
Qed.

Lemma onMessage_no_transport (m : LiveServerMessage) :
  transport_calls (onMessage decode heap m) = [].
Proof.
  unfold onMessage.
  destruct (setupComplete m); [reflexivity|].
  destruct (toolCall m); [reflexivity|].
  destruct (toolCallCancellation m); [reflexivity|].
  destruct (serverContent m) as [sc|]; [|reflexivity].
  unfold onServerContent.
  destruct (interrupted sc); [reflexivity|].
  rewrite !transport_calls_app.
  assert (Hturn : match modelTurn sc with
                  | Some turn => transport_calls (onModelTurn decode heap m turn)
                  | None => []
                  end = []).
  { destruct (modelTurn sc) as [turn|]; [|reflexivity].
    rewrite onModelTurn_partition, transport_calls_app, transport_calls_audio_loop.
    destruct (filter _ (parts_or_empty turn)); reflexivity. }
  destruct (inputTranscription sc), (outputTranscription sc), (turnComplete sc),
           (modelTurn sc); simpl in *; rewrite ?Hturn; reflexivity.
Qed.

(** X1: whatever the inbound message, dispatching it makes no call on the
    transport and publishes no error, open or close event. *)
Theorem dispatch_never_calls_transport :
  forall m : LiveServerMessage,
    transport_calls (onMessage decode heap m) = []
    /\ select ["error"; "open"; "close"] (onMessage decode heap m) = [].
Proof.
  intros m. split; [apply onMessage_no_transport|].
  unfold onMessage.
  destruct (setupComplete m); [reflexivity|].
  destruct (toolCall m); [reflexivity|].
  destruct (toolCallCancellation m); [reflexivity|].
  destruct (serverContent m) as [sc|]; [|reflexivity].
  unfold onServerContent.
  destruct (interrupted sc); [reflexivity|].
  rewrite !select_app.
  destruct (inputTranscription sc), (outputTranscription sc), (turnComplete sc),
           (modelTurn sc);
    rewrite ?select_model_turn_other by reflexivity; reflexivity.
Qed.

(** X2: for a message that reaches the server-content block without the
    interrupted signal, the events published are, in this order: the input
    transcription, the output transcription, one audio event per audio
    part with a non-empty payload (in part order), one content event with
    the non-audio parts in their original order when there are any, and
    turncomplete last. *)
Theorem dispatch_event_sequence :
  forall (m : LiveServerMessage) (sc : LiveServerContent),
    setupComplete m = false ->
    toolCall m = None ->
    toolCallCancellation m = None ->
    serverContent m = Some sc ->
    interrupted sc = false ->
    signals (onMessage decode heap m)
    = match inputTranscription sc with
      | Some t => [EvInputTranscription (t_text t) (final_or_false t)]
      | None => []
      end
      ++ match outputTranscription sc with
         | Some t => [EvOutputTranscription (t_text t) (final_or_false t)]
         | None => []
         end
      ++ match modelTurn sc with
         | Some turn =>
             map (fun p => EvAudio (decode (payload_string heap p)))
                 (filter (fun p => is_audio_part heap p && has_payload heap p)
                         (parts_or_empty turn))
             ++ match filter (fun p => negb (is_audio_part heap p)) (parts_or_empty turn) with
                | [] => []
                | others => [EvContent (model_turn_content others)]
                end
         | None => []
         end
      ++ (if turnComplete sc then [EvTurnComplete] else []).
Proof.
  intros m sc H1 H2 H3 H4 Hint.
  rewrite (onMessage_reaches_content decode heap m sc H1 H2 H3 H4).
  unfold onServerContent. rewrite Hint. rewrite !signals_app.
  f_equal; [destruct (inputTranscription sc); reflexivity|].
  f_equal; [destruct (outputTranscription sc); reflexivity|].
  f_equal; [|destruct (turnComplete sc); reflexivity].
  destruct (modelTurn sc) as [turn|]; [|reflexivity].
  rewrite onModelTurn_partition, signals_app, signals_audio_loop, filter_both.
  f_equal. destruct (filter _ (parts_or_empty turn)); reflexivity.
Qed.

(** X3: a model turn without parts, or whose parts are all audio parts
    with an absent or empty payload, has no effect at all: no event and no
    log entry. *)
Theorem model_turn_of_empty_audio_is_silent :
  forall (m : LiveServerMessage) (turn : Content),
    (forall p, In p (parts_or_empty turn) ->
               is_audio_part heap p = true /\ has_payload heap p = false) ->
    onModelTurn decode heap m turn = [].
Proof.
  intros m turn Hall. rewrite onModelTurn_partition.
  induction (parts_or_empty turn) as [|p ps IH]; [reflexivity|].
  destruct (Hall p (or_introl eq_refl)) as [Ha Hp].
  cbn [filter]. rewrite Ha. cbn [negb map flat_map].
  assert (Hskip : emit_audio decode (payload_of heap p) = []).
  { unfold has_payload in Hp. unfold emit_audio.
    destruct (payload_of heap p) as [s|]; [now rewrite Hp | reflexivity]. }
  rewrite Hskip. apply IH. intros q Hq. apply Hall. now right.
Qed.

End DispatcherExtras.

Lemma dispatch_event_sequence_witness :
  signals (onMessage Sample.decode Sample.heap
             (Sample.content_only (Sample.spoken [0; 1; 4; 2; 3])))
  = [EvInputTranscription "hello" false;
     EvAudio (Sample.decode "AAAA");
     EvAudio (Sample.decode "AQID");
     EvContent (model_turn_content [1; 3])].
Proof.
  apply (dispatch_event_sequence Sample.decode Sample.heap
           (Sample.content_only (Sample.spoken [0; 1; 4; 2; 3]))
           (Sample.spoken [0; 1; 4; 2; 3]));
    reflexivity.
Defined.

Lemma model_turn_of_empty_audio_witness :
  (is_audio_part Sample.heap 4 = true /\ has_payload Sample.heap 4 = false)
  /\ onModelTurn Sample.decode Sample.heap (Sample.content_only (Sample.spoken [4; 4]))
       {| parts := Some [4; 4] |} = [].
Proof.
  split; [split; reflexivity|].
  apply (model_turn_of_empty_audio_is_silent Sample.decode Sample.heap).
  intros p [<-|[<-|[]]]; split; reflexivity.
Defined.

(** ** More on the outbound gateway *)

(** X4: an outbound operation reaches the transport only from a client
    whose status is connected, and then only on the session handle the
    client holds; this holds in every client state. *)
Theorem outbound_calls_use_the_held_session :
  forall (c : Client) (call : TransportCall),
    (forall ps tc, In call (transport_calls (snd (send ps tc c))) ->
                   _status c = connected /\ session c = call_handle call)
    /\ (forall chunks, In call (transport_calls (snd (sendRealtimeInput chunks c))) ->
                       _status c = connected /\ session c = call_handle call)
    /\ (forall r, In call (transport_calls (snd (sendToolResponse r c))) ->
                  _status c = connected /\ session c = call_handle call).
Proof.
  intros c call. unfold send, sendRealtimeInput, sendToolResponse.
  destruct (_status c), (session c) as [h|]; cbn [snd transport_calls log];
    repeat split; try contradiction.
  - destruct H as [<-|[]]. reflexivity.
  - rewrite transport_calls_app, transport_calls_sends, app_nil_r in H.
    apply in_map_iff in H. destruct H as [ch [<- _]]. reflexivity.
  - destruct (functionResponses r) as [[|x xs]|]; simpl in H; try contradiction.
    destruct H as [<-|[]]. reflexivity.
Qed.

Lemma outbound_calls_use_the_held_session_witness :
  In (SendRealtimeInput 1 Sample.mic)
     (transport_calls (snd (sendRealtimeInput [Sample.mic] Sample.connected_client)))
  /\ _status Sample.connected_client = connected
  /\ session Sample.connected_client = call_handle (SendRealtimeInput 1 Sample.mic).
Proof.
  assert (Hin : In (SendRealtimeInput 1 Sample.mic)
                   (transport_calls
                      (snd (sendRealtimeInput [Sample.mic] Sample.connected_client))))
    by (left; reflexivity).
  split; [exact Hin|].
  exact (proj1 (proj2 (outbound_calls_use_the_held_session
                         Sample.connected_client (SendRealtimeInput 1 Sample.mic)))
               [Sample.mic] Hin).
Defined.

(** X5: an outbound operation publishes the not-connected error exactly
    when the status is not connected or no session handle is held, and in
    that case it publishes nothing else; otherwise it publishes no error
    event. *)
Theorem outbound_error_iff_not_ready :
  forall c : Client,
    let ready := _status c = connected /\ session c <> None in
    (forall ps tc,
        (ready -> select ["error"] (snd (send ps tc c)) = [])
        /\ (~ ready -> snd (send ps tc c) = [Emit (EvError not_connected_event)]))
    /\ (forall chunks,
        (ready -> select ["error"] (snd (sendRealtimeInput chunks c)) = [])
        /\ (~ ready ->
            snd (sendRealtimeInput chunks c) = [Emit (EvError not_connected_event)]))
    /\ (forall r,
        (ready -> select ["error"] (snd (sendToolResponse r c)) = [])
        /\ (~ ready ->
            snd (sendToolResponse r c) = [Emit (EvError not_connected_event)])).
Proof.
  intros c ready. unfold ready, send, sendRealtimeInput, sendToolResponse.
  destruct (_status c), (session c) as [h|]; cbn [snd];
    repeat split; intros Hr;
    try reflexivity;
    try (destruct Hr as [Hst Hs]; try discriminate Hst; now contradiction Hs);
    try (exfalso; apply Hr; split; [reflexivity | discriminate]).
  - rewrite select_app.
    replace (select ["error"] (map (fun chunk => Transport (SendRealtimeInput h chunk)) chunks))
      with (@nil Event); [reflexivity|].
    induction chunks as [|ch chunks IH]; [reflexivity | exact IH].
  - destruct (functionResponses r) as [[|x xs]|]; reflexivity.
Qed.

Lemma outbound_error_iff_not_ready_witness :
  (_status Sample.connected_client = connected /\ session Sample.connected_client <> None)
  /\ select ["error"] (snd (send [1] None Sample.connected_client)) = []
  /\ ~ (_status Sample.opened_early = connected /\ session Sample.opened_early <> None)
  /\ snd (send [1] None Sample.opened_early) = [Emit (EvError not_connected_event)].
Proof.
  assert (Hready : _status Sample.connected_client = connected
                   /\ session Sample.connected_client <> None)
    by (split; [reflexivity | discriminate]).
  assert (Hnot : ~ (_status Sample.opened_early = connected
                    /\ session Sample.opened_early <> None))
    by (intros [_ Hs]; now apply Hs).
  split; [exact Hready|].
  split; [exact (proj1 (proj1 (outbound_error_iff_not_ready Sample.connected_client)
                              [1] None) Hready)|].
  split; [exact Hnot|].
  exact (proj2 (proj1 (outbound_error_iff_not_ready Sample.opened_early) [1] None) Hnot).
Defined.

(** X6: with status connected and a session held, sendToolResponse
    forwards a non-empty list of function responses in a single transport
    call that carries the list unchanged, makes no transport call when the
    list is absent or empty, and in every case logs the response exactly
    once after that. *)
Theorem tool_response_sent_only_if_non_empty :
  forall (c : Client) (h : Session) (r : LiveClientToolResponse),
    _status c = connected ->
    session c = Some h ->
    logs (snd (sendToolResponse r c))
    = [{| log_type := "client.toolResponse"; log_message := MsgToolResponse r |}]
    /\ (forall responses,
           functionResponses r = Some responses -> responses <> [] ->
           snd (sendToolResponse r c)
           = Transport (SendToolResponse h responses)
             :: log "client.toolResponse" (MsgToolResponse r))
    /\ (functionResponses r = None \/ functionResponses r = Some [] ->
        transport_calls (snd (sendToolResponse r c)) = []).
Proof.
  intros c h r Hst Hs. unfold sendToolResponse. rewrite Hst, Hs. cbn [snd].
  split; [destruct (functionResponses r) as [[|x xs]|]; reflexivity|].
  split.
  - intros responses Hr Hne. rewrite Hr.
    destruct responses as [|x xs]; [now contradiction Hne | reflexivity].
  - intros [Hr|Hr]; rewrite Hr; reflexivity.
Qed.

Lemma tool_response_sent_only_if_non_empty_witness :
  _status Sample.connected_client = connected
  /\ session Sample.connected_client = Some 1
  /\ snd (sendToolResponse Example.answer Sample.connected_client)
     = Transport (SendToolResponse 1 ["{ id: 1, response: ok }"])
       :: log "client.toolResponse" (MsgToolResponse Example.answer).
Proof.
  split; [reflexivity|]. split; [reflexivity|].
  apply (proj1 (proj2 (tool_response_sent_only_if_non_empty
                         Sample.connected_client 1 Example.answer eq_refl eq_refl)));
    [reflexivity | discriminate].
Defined.

Lemma existsb_same_members {A : Type} (f : A -> bool) (xs ys : list A) :
  (forall x, In x xs <-> In x ys) -> existsb f xs = existsb f ys.
Proof.
  intros Hmem.
  destruct (existsb f xs) eqn:Hx, (existsb f ys) eqn:Hy; try reflexivity.
  - apply existsb_exists in Hx. destruct Hx as [x [Hin Hfx]].
    assert (Hy' : existsb f ys = true)
      by (apply existsb_exists; exists x; split; [now apply Hmem | assumption]).
    congruence.
  - apply existsb_exists in Hy. destruct Hy as [y [Hin Hfy]].
    assert (Hx' : existsb f xs = true)
      by (apply existsb_exists; exists y; split; [now apply Hmem | assumption]).
    congruence.
Qed.

(** X7: the classification that sendRealtimeInput logs depends only on
    whether some chunk has a mime type containing audio and whether some
    chunk has one containing image; the early exit of the scan never
    changes it, so two chunk lists with the same members, in any order
    and multiplicity, are classified alike. *)
Theorem classification_depends_on_members_only :
  forall chunks : list Chunk,
    classify_chunks chunks
    = (if existsb (fun ch => JsString.includes (c_mimeType ch) "audio") chunks
       then if existsb (fun ch => JsString.includes (c_mimeType ch) "image") chunks
            then "audio + video" else "audio"
       else if existsb (fun ch => JsString.includes (c_mimeType ch) "image") chunks
            then "video" else "unknown")
    /\ (forall chunks',
           (forall ch, In ch chunks <-> In ch chunks') ->
           classify_chunks chunks = classify_chunks chunks').
Proof.
  assert (Hchar : forall chunks,
             classify_chunks chunks
             = (if existsb (fun ch => JsString.includes (c_mimeType ch) "audio") chunks
                then if existsb (fun ch => JsString.includes (c_mimeType ch) "image") chunks
                     then "audio + video" else "audio"
                else if existsb (fun ch => JsString.includes (c_mimeType ch) "image") chunks
                     then "video" else "unknown")).
  { intros chunks. unfold classify_chunks. rewrite scan_chunks_existsb. simpl.
    destruct (existsb _ chunks), (existsb _ chunks); reflexivity. }
  intros chunks. split; [apply Hchar|].
  intros chunks' Hmem. rewrite !Hchar.
  now rewrite (existsb_same_members _ chunks chunks' Hmem),
              (existsb_same_members _ chunks chunks' Hmem).
Qed.

Lemma classification_depends_on_members_only_witness :
  (forall ch, In ch [Sample.mic; Sample.frame] <-> In ch [Sample.frame; Sample.mic; Sample.frame])
  /\ classify_chunks [Sample.mic; Sample.frame]
     = classify_chunks [Sample.frame; Sample.mic; Sample.frame].
Proof.
  assert (Hmem : forall ch, In ch [Sample.mic; Sample.frame]
                            <-> In ch [Sample.frame; Sample.mic; Sample.frame])
    by (intros ch; simpl; tauto).
  split; [exact Hmem|].
  exact (proj2 (classification_depends_on_members_only [Sample.mic; Sample.frame])
               [Sample.frame; Sample.mic; Sample.frame] Hmem).
Defined.

(** X8: every microphone chunk the control tray hands over goes out as
    one transport send of its own, carrying the payload unchanged under
    the mime type audio/pcm;rate=16000, and is logged as audio whatever
    the payload is; without a connected session it is dropped with one
    error event. *)
Theorem microphone_chunk_sent_alone_as_audio :
  forall (base64 : string) (c : Client),
    (forall h, _status c = connected -> session c = Some h ->
               snd (onData base64 c)
               = [Transport (SendRealtimeInput h {| c_mimeType := "audio/pcm;rate=16000";
                                                    c_data := base64 |});
                  Emit (EvLog {| log_type := "client.realtimeInput";
                                 log_message := MsgText "audio" |})])
    /\ (~ (_status c = connected /\ session c <> None) ->
        snd (onData base64 c) = [Emit (EvError not_connected_event)])
    /\ fst (onData base64 c) = c.
Proof.
  intros base64 c. unfold onData.
  split; [|split].
  - intros h Hst Hs. unfold sendRealtimeInput. rewrite Hst, Hs. reflexivity.
  - intros Hnot. unfold sendRealtimeInput.
    destruct (_status c), (session c) as [h|]; try reflexivity.
    exfalso. apply Hnot. split; [reflexivity | discriminate].
  - apply sendRealtimeInput_keeps_state.
Qed.

Lemma microphone_chunk_sent_alone_witness :
  _status Sample.connected_client = connected
  /\ session Sample.connected_client = Some 1
  /\ transport_calls (snd (onData "AAAA" Sample.connected_client))
     = [SendRealtimeInput 1 Sample.mic].
Proof.
  split; [reflexivity|]. split; [reflexivity|].
  rewrite (proj1 (microphone_chunk_sent_alone_as_audio "AAAA" Sample.connected_client)
                 1 eq_refl eq_refl).
  reflexivity.
Defined.

(** ** More on the connection state machine *)

(** X9: a second connect() right after a first one is always refused: it
    returns false, makes no transport call and changes nothing, whether
    the first call started a connection or was itself refused. *)
Theorem second_connect_is_refused :
  forall (config1 config2 : LiveConnectConfig) (c : Client),
    connect_begin config2 (fst (fst (connect_begin config1 c)))
    = (fst (fst (connect_begin config1 c)), [], Returned false).
Proof.
  intros config1 config2 c. unfold connect_begin.
  destruct (_status c) eqn:Hst; simpl; rewrite ?Hst; reflexivity.
Qed.

(** X10: disconnect() closes the session exactly when one is held, and
    is idempotent: a second disconnect() returns true again, leaves the
    client as the first one left it, makes no transport call and
    publishes its single log entry. *)
Theorem disconnect_twice :
  forall c : Client,
    transport_calls (snd (fst (disconnect c)))
    = match session c with
      | Some h => [SessionClose h]
      | None => []
      end
    /\ disconnect (fst (fst (disconnect c)))
       = (fst (fst (disconnect c)), log "client.close" (MsgText "Disconnected"), true).
Proof.
  intros c. unfold disconnect. cbn [fst snd].
  split; [destruct (session c); reflexivity | reflexivity].
Qed.

(** X11: a failed connect always publishes exactly one error event, of
    type error, whose message is the message of the caught value when
    that is present and not empty and Failed to connect. otherwise, so
    the message is never empty; the log entry quotes the same message. *)
Theorem failed_connect_reports_a_message :
  forall (e : Thrown) (c : Client),
    select ["error"] (snd (fst (connect_rejected e c)))
    = [EvError {| ee_type := "error"; ee_message := failure_message e |}]
    /\ logs (snd (fst (connect_rejected e c)))
       = [{| log_type := "server.error";
             log_message :=
               MsgText ("Could not connect to GenAI Live: " ++ failure_message e) |}]
    /\ JsString.truthy (failure_message e) = true
    /\ snd (connect_rejected e c) = false.
Proof.
  intros e c. repeat split.
  unfold failure_message.
  destruct e as [m|]; [|reflexivity].
  destruct (JsString.truthy m) eqn:Hm; [exact Hm | reflexivity].
Qed.



(** X13: once the client is disconnected by the close callback, the error
    callback, disconnect() or a failed connect, every outbound operation
    is turned away with the not-connected error and no transport call,
    even when a stale session handle is still held. *)
Theorem nothing_goes_out_after_disconnection :
  forall (c c' : Client),
    (exists e, c' = fst (onClose e c))
    \/ (exists e, c' = fst (onError e c))
    \/ c' = fst (fst (disconnect c))
    \/ (exists e, c' = fst (fst (connect_rejected e c))) ->
    (forall ps tc, snd (send ps tc c') = [Emit (EvError not_connected_event)])
    /\ (forall chunks,
           snd (sendRealtimeInput chunks c') = [Emit (EvError not_connected_event)])
    /\ (forall r, snd (sendToolResponse r c') = [Emit (EvError not_connected_event)]).
Proof.
  intros c c' Hc'.
  assert (Hst : _status c' = disconnected).
  { destruct Hc' as [[e ->]|[[e ->]|[->|[e ->]]]]; reflexivity. }
  unfold send, sendRealtimeInput, sendToolResponse. rewrite Hst.
  repeat split.
Qed.

Lemma nothing_goes_out_after_disconnection_witness :
  fst (onClose Sample.closing Sample.connected_client) = Example.closed_under
  /\ session Example.closed_under = Some 1
  /\ snd (sendRealtimeInput [Sample.mic] Example.closed_under)
     = [Emit (EvError not_connected_event)].
Proof.
  split; [reflexivity|]. split; [reflexivity|].
  apply (nothing_goes_out_after_disconnection Sample.connected_client Example.closed_under).
  left. exists Sample.closing. reflexivity.
Defined.

(** X14: after the close or the error callback the client can connect
    again: connect() is accepted and asks the transport for a session
    with the client's model, and once it resolves the client is connected
    and holds the new handle, and send, sendRealtimeInput and
    sendToolResponse each make their transport calls, on the new handle
    and not on the one held before: one call with the parts for send, one
    call per chunk for sendRealtimeInput, one call for a non-empty list
    of function responses. *)
Theorem reconnect_replaces_the_stale_handle :
  forall (c c' : Client) (config : LiveConnectConfig) (h : Session),
    (exists e, c' = fst (onClose e c)) \/ (exists e, c' = fst (onError e c)) ->
    connect_begin config c'
    = (set_status connecting c', [Transport (LiveConnect (model c) config)], Awaiting)
    /\ (let c2 := fst (fst (connect_resolved h (set_status connecting c'))) in
        _status c2 = connected
        /\ session c2 = Some h
        /\ (forall ps tc,
               transport_calls (snd (send ps tc c2))
               = [SendClientContent h ps (match tc with Some b => b | None => true end)])
        /\ (forall chunks,
               transport_calls (snd (sendRealtimeInput chunks c2))
               = map (SendRealtimeInput h) chunks)
        /\ (forall r responses,
               functionResponses r = Some responses -> responses <> [] ->
               transport_calls (snd (sendToolResponse r c2))
               = [SendToolResponse h responses])).
Proof.
  intros c c' config h Hc'.
  assert (Hst : _status c' = disconnected /\ model c' = model c).
  { destruct Hc' as [[e ->]|[e ->]]; split; reflexivity. }
  destruct Hst as [Hst Hmodel].
  unfold connect_begin. rewrite Hst, Hmodel. split; [reflexivity|].
  cbn. split; [reflexivity|]. split; [reflexivity|].
  split; [reflexivity|]. split.
  - intros chunks. rewrite transport_calls_app, transport_calls_sends. apply app_nil_r.
  - intros r responses Hr Hne. rewrite Hr.
    destruct responses as [|x xs]; [now contradiction Hne | reflexivity].
Qed.

Lemma reconnect_replaces_the_stale_handle_witness :
  fst (onClose Sample.closing Sample.connected_client) = Example.closed_under
  /\ session Example.closed_under = Some 1
  /\ snd (connect_begin [] Example.closed_under) = Awaiting
  /\ transport_calls
       (snd (sendRealtimeInput [Sample.mic; Sample.frame]
               (fst (fst (connect_resolved 2 (set_status connecting Example.closed_under))))))
     = map (SendRealtimeInput 2) [Sample.mic; Sample.frame].
Proof.
  pose proof (reconnect_replaces_the_stale_handle
                Sample.connected_client Example.closed_under [] 2
                (or_introl (ex_intro _ Sample.closing eq_refl))) as [Hbegin Hafter].
  split; [reflexivity|]. split; [reflexivity|].
  split; [now rewrite Hbegin|].
  destruct Hafter as [_ [_ [_ [Hchunks _]]]].
  exact (Hchunks [Sample.mic; Sample.frame]).
Defined.

(** ** Runs: which handles and which model reach the transport *)

Lemma outbound_calls_on_session (c : Client) (call : TransportCall) :
  (forall ps tc, In call (transport_calls (snd (send ps tc c))) ->
                 session c = call_handle call /\ call_handle call <> None)
  /\ (forall chunks, In call (transport_calls (snd (sendRealtimeInput chunks c))) ->
                     session c = call_handle call /\ call_handle call <> None)
  /\ (forall r, In call (transport_calls (snd (sendToolResponse r c))) ->
                session c = call_handle call /\ call_handle call <> None).
Proof.
  unfold send, sendRealtimeInput, sendToolResponse.
  destruct (_status c), (session c) as [h|]; cbn [snd transport_calls log];
    repeat split; try contradiction.
  - destruct H as [<-|[]]. reflexivity.
  - destruct H as [<-|[]]. discriminate.
  - rewrite transport_calls_app, transport_calls_sends, app_nil_r in H.
    apply in_map_iff in H. destruct H as [ch [<- _]]. reflexivity.
  - rewrite transport_calls_app, transport_calls_sends, app_nil_r in H.
    apply in_map_iff in H. destruct H as [ch [<- _]]. discriminate.
  - destruct (functionResponses r) as [[|x xs]|]; simpl in H; try contradiction.
    destruct H as [<-|[]]. reflexivity.
  - destruct (functionResponses r) as [[|x xs]|]; simpl in H; try contradiction.
    destruct H as [<-|[]]. discriminate.
Qed.

Lemma resolved_handles_cons (a : Action) (rest : list Action) :
  resolved_handles (a :: rest) = resolved_handles [a] ++ resolved_handles rest.
Proof. destruct a; reflexivity. Qed.

Lemma step_handles (decode : string -> ArrayBuffer) (heap : Heap)
      (a : Action) (w w' : World) (effs : list Effect) (known : list Session) :
  step decode heap a w = Some (w', effs) ->
  (forall h, session (client w) = Some h -> In h known) ->
  (forall call h, In call (transport_calls effs) -> call_handle call = Some h -> In h known)
  /\ (forall h, session (client w') = Some h -> In h (known ++ resolved_handles [a])).
Proof.
  intros Hstep Hknown.
  assert (Hweak : forall h, In h known -> In h (known ++ resolved_handles [a]))
    by (intros h Hh; apply in_or_app; now left).
  destruct a; simpl in Hstep.
  - (* connect *)
    unfold connect_begin in Hstep.
    destruct (_status (client w)); inversion Hstep; subst; simpl;
      rewrite app_nil_r; (split; [|exact Hknown]).
    + intros call h [].
    + intros call h [<-|[]] Hcall. discriminate Hcall.
    + intros call h [].
  - (* the promise resolves *)
    destruct (awaiting w); inversion Hstep; subst; simpl.
    split; [intros call k []|].
    intros k Hk. inversion Hk; subst. apply in_or_app. right. now left.
  - (* the promise rejects *)
    destruct (awaiting w); inversion Hstep; subst; simpl.
    split; [intros call k []| intros k Hk; discriminate Hk].
  - (* disconnect *)
    inversion Hstep; subst; simpl. split; [|intros k Hk; discriminate Hk].
    intros call k Hin Hcall.
    destruct (session (client w)) as [h|] eqn:Hs; simpl in Hin; [|contradiction].
    destruct Hin as [<-|[]]. simpl in Hcall. inversion Hcall; subst. now apply Hknown.
  - (* send *)
    inversion Hstep; subst; simpl. rewrite send_keeps_state. split; [|auto].
    intros call k Hin Hcall.
    apply (proj1 (outbound_calls_on_session (client w) call)) in Hin.
    apply Hknown. destruct Hin as [-> _]. exact Hcall.
  - (* sendRealtimeInput *)
    inversion Hstep; subst; simpl. rewrite sendRealtimeInput_keeps_state. split; [|auto].
    intros call k Hin Hcall.
    apply (proj1 (proj2 (outbound_calls_on_session (client w) call))) in Hin.
    apply Hknown. destruct Hin as [-> _]. exact Hcall.
  - (* sendToolResponse *)
    inversion Hstep; subst; simpl. rewrite sendToolResponse_keeps_state. split; [|auto].
    intros call k Hin Hcall.
    apply (proj2 (proj2 (outbound_calls_on_session (client w) call))) in Hin.
    apply Hknown. destruct Hin as [-> _]. exact Hcall.
  - (* open callback *)
    inversion Hstep; subst; simpl. split; [intros call k []|auto].
  - (* message callback *)
    inversion Hstep; subst; simpl. rewrite onMessage_no_transport.
    split; [intros call k []|auto].
  - (* error callback *)
    inversion Hstep; subst; simpl. split; [intros call k []|auto].
  - (* close callback *)
    inversion Hstep; subst; simpl. split; [intros call k []|auto].
Qed.

Lemma run_handles (decode : string -> ArrayBuffer) (heap : Heap) (actions : list Action) :
  forall (w w' : World) (effs : list Effect) (known : list Session),
    run decode heap actions w = Some (w', effs) ->
    (forall h, session (client w) = Some h -> In h known) ->
    (forall call h, In call (transport_calls effs) -> call_handle call = Some h ->
                    In h (known ++ resolved_handles actions))
    /\ (forall h, session (client w') = Some h -> In h (known ++ resolved_handles actions)).
Proof.
  induction actions as [|a actions IH]; intros w w' effs known Hrun Hknown.
  - inversion Hrun; subst. simpl. rewrite app_nil_r. split; [intros call h []|assumption].
  - simpl in Hrun.
    destruct (step decode heap a w) as [[w1 effs1]|] eqn:Hstep; [|discriminate].
    destruct (run decode heap actions w1) as [[w2 effs2]|] eqn:Hrun1; [|discriminate].
    inversion Hrun; subst.
    destruct (step_handles decode heap a w w1 effs1 known Hstep Hknown) as [Hcalls1 Hknown1].
    destruct (IH w1 w' effs2 (known ++ resolved_handles [a]) Hrun1 Hknown1)
      as [Hcalls2 Hfinal].
    rewrite resolved_handles_cons, app_assoc.
    split; [|exact Hfinal].
    intros call h Hin Hcall. rewrite transport_calls_app in Hin.
    apply in_app_or in Hin. destruct Hin as [Hin|Hin].
    + apply in_or_app. left. apply in_or_app. left. now apply (Hcalls1 call h).
    + now apply (Hcalls2 call h).
Qed.

(** X15: along every run of a fresh client, every transport call made on
    a session (close, turn content, realtime chunk, tool response) is made
    on a handle that the transport resolved a connect of that run with,
    and so is the handle the client holds at the end. *)
Theorem run_uses_only_resolved_handles :
  forall decode heap model actions w effs,
    run decode heap actions (initial model) = Some (w, effs) ->
    (forall call h,
        In call (transport_calls effs) -> call_handle call = Some h ->
        In h (resolved_handles actions))
    /\ (forall h, session (client w) = Some h -> In h (resolved_handles actions)).
Proof.
  intros decode heap model actions w effs Hrun.
  apply (run_handles decode heap actions (initial model) w effs [] Hrun).
  intros h Hh. discriminate Hh.
Qed.

Lemma run_uses_only_resolved_handles_witness :
  option_map (fun r => transport_calls (snd r))
    (run Sample.decode Sample.heap
         [CallConnect []; ConnectResolves 7; CallSendRealtimeInput [Sample.mic];
          TransportClose Sample.closing; CallDisconnect]
         (initial None))
  = Some [LiveConnect DEFAULT_LIVE_API_MODEL []; SendRealtimeInput 7 Sample.mic;
          SessionClose 7]
  /\ In 7 (resolved_handles
             [CallConnect []; ConnectResolves 7; CallSendRealtimeInput [Sample.mic];
              TransportClose Sample.closing; CallDisconnect]).
Proof.
  split; [reflexivity|].
  destruct (run Sample.decode Sample.heap
              [CallConnect []; ConnectResolves 7; CallSendRealtimeInput [Sample.mic];
               TransportClose Sample.closing; CallDisconnect]
              (initial None)) as [[w effs]|] eqn:Hrun; [|discriminate Hrun].
  apply (proj1 (run_uses_only_resolved_handles Sample.decode Sample.heap None _ w effs Hrun)
               (SessionClose 7) 7); [|reflexivity].
  inversion Hrun. simpl. right. right. left. reflexivity.
Defined.

Lemma connect_models_app (xs ys : list TransportCall) :
  connect_models (xs ++ ys) = connect_models xs ++ connect_models ys.
Proof.
  induction xs as [|x xs IH]; [reflexivity|].
  destruct x; simpl; rewrite ?IH; reflexivity.
Qed.

Lemma connect_models_of_session_calls (calls : list TransportCall) :
  (forall call, In call calls -> call_handle call <> None) ->
  connect_models calls = [].
Proof.
  induction calls as [|x xs IH]; intros Hall; [reflexivity|].
  assert (Hx : call_handle x <> None) by (apply Hall; now left).
  assert (Hxs : connect_models xs = []) by (apply IH; intros call Hc; apply Hall; now right).
  destruct x; simpl; try exact Hxs. now contradiction Hx.
Qed.

Lemma step_model (decode : string -> ArrayBuffer) (heap : Heap)
      (a : Action) (w w' : World) (effs : list Effect) :
  step decode heap a w = Some (w', effs) ->
  model (client w') = model (client w)
  /\ (forall m, In m (connect_models (transport_calls effs)) -> m = model (client w)).
Proof.
  intros Hstep. destruct a; simpl in Hstep.
  - unfold connect_begin in Hstep.
    destruct (_status (client w)); inversion Hstep; subst; simpl;
      (split; [reflexivity|]).
    + intros nm [].
    + intros nm [<-|[]]. reflexivity.
    + intros nm [].
  - destruct (awaiting w); inversion Hstep; subst; simpl.
    split; [reflexivity | intros nm []].
  - destruct (awaiting w); inversion Hstep; subst; simpl.
    split; [reflexivity | intros nm []].
  - inversion Hstep; subst; simpl. split; [reflexivity|].
    destruct (session (client w)); intros nm [].
  - inversion Hstep; subst; simpl. rewrite send_keeps_state. split; [reflexivity|].
    rewrite connect_models_of_session_calls; [intros nm []|].
    intros call Hin.
    now apply (proj1 (outbound_calls_on_session (client w) call)) in Hin.
  - inversion Hstep; subst; simpl. rewrite sendRealtimeInput_keeps_state.
    split; [reflexivity|].
    rewrite connect_models_of_session_calls; [intros nm []|].
    intros call Hin.
    now apply (proj1 (proj2 (outbound_calls_on_session (client w) call))) in Hin.
  - inversion Hstep; subst; simpl. rewrite sendToolResponse_keeps_state.
    split; [reflexivity|].
    rewrite connect_models_of_session_calls; [intros nm []|].
    intros call Hin.
    now apply (proj2 (proj2 (outbound_calls_on_session (client w) call))) in Hin.
  - inversion Hstep; subst; simpl. split; [reflexivity | intros nm []].
  - inversion Hstep; subst; simpl. rewrite onMessage_no_transport.
    split; [reflexivity | intros nm []].
  - inversion Hstep; subst; simpl. split; [reflexivity | intros nm []].
  - inversion Hstep; subst; simpl. split; [reflexivity | intros nm []].
Qed.

Lemma run_model (decode : string -> ArrayBuffer) (heap : Heap) (actions : list Action) :
  forall (w w' : World) (effs : list Effect),
    run decode heap actions w = Some (w', effs) ->
    model (client w') = model (client w)
    /\ (forall m, In m (connect_models (transport_calls effs)) -> m = model (client w)).
Proof.
  induction actions as [|a actions IH]; intros w w' effs Hrun.
  - inversion Hrun; subst. split; [reflexivity | intros m []].
  - simpl in Hrun.
    destruct (step decode heap a w) as [[w1 effs1]|] eqn:Hstep; [|discriminate].
    destruct (run decode heap actions w1) as [[w2 effs2]|] eqn:Hrun1; [|discriminate].
    inversion Hrun; subst.
    destruct (step_model decode heap a w w1 effs1 Hstep) as [Hm1 Hc1].
    destruct (IH w1 w' effs2 Hrun1) as [Hm2 Hc2].
    split; [congruence|].
    intros m Hin. rewrite transport_calls_app, connect_models_app in Hin.
    apply in_app_or in Hin. destruct Hin as [Hin|Hin]; [now apply Hc1|].
    rewrite <- Hm1. now apply Hc2.
Qed.

(** X16: the model of a client is fixed at construction, to the given
    name when one is given and is not empty and to the default model
    otherwise; no run changes it, and every connection the client asks the
    transport for along a run is asked for that model. *)
Theorem model_is_fixed_at_construction :
  forall (name : option string),
    (forall n, name = Some n -> JsString.truthy n = true -> model (new_client name) = n)
    /\ (name = None \/ name = Some "" -> model (new_client name) = DEFAULT_LIVE_API_MODEL)
    /\ (forall decode heap actions w effs,
           run decode heap actions (initial name) = Some (w, effs) ->
           model (client w) = model (new_client name)
           /\ (forall m, In m (connect_models (transport_calls effs)) ->
                         m = model (new_client name))).
Proof.
  intros name. split; [|split].
  - intros n -> Hn. simpl. now rewrite Hn.
  - intros [->| ->]; reflexivity.
  - intros decode heap actions w effs Hrun.
    apply (run_model decode heap actions (initial name) w effs Hrun).
Qed.

Lemma model_is_fixed_at_construction_witness :
  JsString.truthy "gemini-live-2.5" = true
  /\ model (new_client (Some "gemini-live-2.5")) = "gemini-live-2.5"
  /\ option_map (fun r => connect_models (transport_calls (snd r)))
       (run Sample.decode Sample.heap
            [CallConnect []; ConnectRejects None; CallConnect []; ConnectResolves 3]
            (initial (Some "gemini-live-2.5")))
     = Some ["gemini-live-2.5"; "gemini-live-2.5"].
Proof.
  split; [reflexivity|].
  split; [|reflexivity].
  apply (proj1 (model_is_fixed_at_construction (Some "gemini-live-2.5")) "gemini-live-2.5");
    reflexivity.
Defined.

(** ** More on the close reason *)

Lemma drop_app_length (pre rest : string) :
  JsString.drop (String.length pre) (pre ++ rest) = rest.
Proof. induction pre as [|ch pre IH]; [destruct rest; reflexivity | exact IH]. Qed.

Lemma drop_is_suffix (n : nat) (s : string) :
  exists pre, s = (pre ++ JsString.drop n s)%string.
Proof.
  revert s; induction n as [|n IH]; intros s.
  - exists "". destruct s; reflexivity.
  - destruct s as [|ch s]; [exists ""; reflexivity|].
    destruct (IH s) as [pre Hpre]. exists (String ch pre).
    simpl. now rewrite <- Hpre.
Qed.

Lemma append_assoc (a b c : string) : ((a ++ b) ++ c = a ++ (b ++ c))%string.
Proof. induction a as [|ch a IH]; [reflexivity | simpl; now rewrite IH]. Qed.

(** X17: the reason that onClose logs is always a suffix of the raw
    close reason: the extraction only ever strips a prefix, it never
    alters or adds text. *)
Theorem close_reason_is_a_suffix :
  forall raw : string, exists stripped, raw = (stripped ++ close_reason raw)%string.
Proof.
  intros raw. pose proof (close_reason_cases raw) as Hcases.
  destruct (String.index 0 "ERROR]" raw) as [[|i]|].
  - exists "". now rewrite Hcases.
  - destruct Hcases as [_ ->].
    destruct (drop_is_suffix (S i) raw) as [p1 H1].
    destruct (drop_is_suffix 6 (JsString.drop (S i) raw)) as [p2 H2].
    destruct (drop_is_suffix 1 (JsString.drop 6 (JsString.drop (S i) raw))) as [p3 H3].
    exists (p1 ++ p2 ++ p3)%string.
    rewrite H1 at 1. rewrite H2 at 1. rewrite H3 at 1.
    now rewrite !append_assoc.
  - exists "". now rewrite Hcases.
Qed.

(** X18: when the marker ERROR] is first found after a non-empty prefix
    and is followed by one delimiter character, the reason that onClose
    uses is exactly the text after that delimiter; when the reason does
    not contain the marker, it is used verbatim. *)
Theorem close_reason_after_marker :
  forall (pre rest : string) (delimiter : ascii),
    pre <> "" ->
    String.index 0 "ERROR]" (pre ++ "ERROR]" ++ String delimiter rest)
    = Some (String.length pre) ->
    close_reason (pre ++ "ERROR]" ++ String delimiter rest) = rest.
Proof.
  intros pre rest delimiter Hpre Hindex.
  pose proof (close_reason_cases (pre ++ "ERROR]" ++ String delimiter rest)) as Hcases.
  rewrite Hindex in Hcases.
  destruct pre as [|ch pre]; [now contradiction Hpre|].
  change (String.length (String ch pre)) with (S (String.length pre)) in Hcases.
  destruct Hcases as [_ ->].
  change (S (String.length pre)) with (String.length (String ch pre)).
  rewrite drop_app_length. reflexivity.
Qed.

Lemma close_reason_after_marker_witness :
  "[" <> ""
  /\ String.index 0 "ERROR]" ("[" ++ "ERROR]" ++ String " " "quota exceeded") = Some 1
  /\ close_reason "[ERROR] quota exceeded" = "quota exceeded".
Proof.
  split; [discriminate|]. split; [reflexivity|].
  apply (close_reason_after_marker "[" "quota exceeded" " "); [discriminate | reflexivity].
Defined.

(** X19: a close reason without the marker ERROR] is logged verbatim,
    also when it contains the word error in any letter case, and an empty
    reason gives the bare log text without a reason part. *)
Theorem close_reason_without_marker :
  forall (e : CloseEvent) (c : Client),
    String.index 0 "ERROR]" (reason e) = None ->
    close_reason (reason e) = reason e
    /\ logs (snd (onClose e c))
       = [{| log_type := "server." ++ ce_type e;
             log_message :=
               MsgText ("disconnected "
                        ++ (if JsString.truthy (reason e)
                            then "with reason: " ++ reason e else "")) |}]
    /\ select ["close"] (snd (onClose e c)) = [EvClose e].
Proof.
  intros e c Hindex.
  pose proof (close_reason_cases (reason e)) as Hcases. rewrite Hindex in Hcases.
  unfold onClose. rewrite Hcases. repeat split.
Qed.

Lemma close_reason_without_marker_witness :
  String.index 0 "ERROR]" "Internal error encountered" = None
  /\ close_reason "Internal error encountered" = "Internal error encountered".
Proof.
  split; [reflexivity|].
  apply (close_reason_without_marker
           {| ce_type := "close"; reason := "Internal error encountered" |}
           Sample.connected_client).
  reflexivity.
Defined.

(** ** The tool editor and the catalogs *)

Section ToolEditorFacts.

Variable JSON : Type.
Variable stringify : JSON -> string.
Variable parse : string -> option JSON.
Variable empty_object : JSON.

(** Truthiness of a JSON value: [0], [false], [null] and the empty string
    are falsy, objects and arrays are truthy. *)
Variable truthy_value : JSON -> bool.

(** X20: opening a tool in the editor and saving it without an edit hands
    onSave the tool with its description, parameters and scheduling
    replaced by the empty string, the empty object and INTERRUPT where
    they are missing or falsy, provided the parameters text parses back
    to the value it was printed from; so a tool whose parameters are
    present but falsy, such as the number zero, is saved with the empty
    object, and a tool that has a description, truthy parameters and a
    scheduling is handed back unchanged; isEnabled is never touched. *)
Theorem open_and_save_returns_the_tool :
  forall tool : FunctionCall JSON,
    parse (stringify (parameters_or_empty empty_object truthy_value tool))
    = Some (parameters_or_empty empty_object truthy_value tool) ->
    snd (handleSave parse tool (load stringify empty_object truthy_value tool))
    = Some {| fc_name := fc_name tool;
              fc_description := Some (description_or_empty tool);
              fc_parameters := Some (parameters_or_empty empty_object truthy_value tool);
              isEnabled := isEnabled tool;
              scheduling := Some (scheduling_or_interrupt tool) |}
    /\ (forall p,
           fc_parameters tool = Some p -> truthy_value p = false ->
           option_map fc_parameters
             (snd (handleSave parse tool (load stringify empty_object truthy_value tool)))
           = Some (Some empty_object))
    /\ (fc_description tool <> None ->
        (exists p, fc_parameters tool = Some p /\ truthy_value p = true) ->
        scheduling tool <> None ->
        snd (handleSave parse tool (load stringify empty_object truthy_value tool))
        = Some tool).
Proof.
  intros tool Hround.
  assert (Hsave : snd (handleSave parse tool (load stringify empty_object truthy_value tool))
                  = Some {| fc_name := fc_name tool;
                            fc_description := Some (description_or_empty tool);
                            fc_parameters :=
                              Some (parameters_or_empty empty_object truthy_value tool);
                            isEnabled := isEnabled tool;
                            scheduling := Some (scheduling_or_interrupt tool) |}).
  { unfold handleSave, load. cbn [parametersStr]. rewrite Hround. reflexivity. }
  split; [exact Hsave|]. split.
  - intros p Hp Hfalsy. rewrite Hsave. cbn [option_map fc_parameters].
    unfold parameters_or_empty. now rewrite Hp, Hfalsy.
  - intros Hd [p [Hp Htruthy]] Hs. rewrite Hsave.
    unfold parameters_or_empty. rewrite Hp, Htruthy.
    destruct tool as [n [d|] params en [sch|]]; try (now contradiction Hd);
      try (now contradiction Hs).
    cbn in Hp. subst params.
    unfold description_or_empty, scheduling_or_interrupt. cbn.
    destruct d; reflexivity.
Qed.

(** X21: a save with parameters text that does not parse hands nothing to
    onSave, sets the error message and keeps every edited field, the
    rejected text included; a later save with text that parses clears the
    error and hands onSave the edited fields with the parsed parameters
    and the tool's own isEnabled. *)
Theorem invalid_parameters_block_the_save :
  forall (tool : FunctionCall JSON) (st : Editor) (bad good : string) (p : JSON),
    parse bad = None ->
    parse good = Some p ->
    let rejected := handleSave parse tool (edit_parameters bad st) in
    let accepted := handleSave parse tool (edit_parameters good (fst rejected)) in
    snd rejected = None
    /\ fst rejected
       = set_jsonError (Some "Invalid JSON format for parameters.") (edit_parameters bad st)
    /\ jsonError (fst accepted) = None
    /\ snd accepted
       = Some {| fc_name := ed_name st;
                 fc_description := Some (ed_description st);
                 fc_parameters := Some p;
                 isEnabled := isEnabled tool;
                 scheduling := Some (ed_scheduling st) |}.
Proof.
  intros tool st bad good p Hbad Hgood. cbv zeta.
  unfold handleSave. cbn [parametersStr edit_parameters]. rewrite Hbad.
  cbn [fst snd parametersStr edit_parameters set_jsonError]. rewrite Hgood.
  repeat split.
Qed.

End ToolEditorFacts.

Lemma open_and_save_returns_the_tool_witness :
  (Some (parameters_or_empty "{}" Example.is_object_text Example.draft)
   = Some (parameters_or_empty "{}" Example.is_object_text Example.draft)
   /\ Example.is_object_text "{ type: OBJECT }" = true
   /\ snd (handleSave Some Example.draft
             (load (fun txt => txt) "{}" Example.is_object_text Example.draft))
      = Some Example.draft)
  /\ (Example.is_object_text "0" = false
      /\ option_map fc_parameters
           (snd (handleSave Some Example.zeroed
                   (load (fun txt => txt) "{}" Example.is_object_text Example.zeroed)))
         = Some (Some "{}")).
Proof.
  split.
  - split; [reflexivity|]. split; [reflexivity|].
    apply (proj2 (proj2 (open_and_save_returns_the_tool string (fun txt => txt) Some "{}"
                           Example.is_object_text Example.draft eq_refl)));
      [discriminate | exists "{ type: OBJECT }"; split; reflexivity | discriminate].
  - split; [reflexivity|].
    apply (proj1 (proj2 (open_and_save_returns_the_tool string (fun txt => txt) Some "{}"
                           Example.is_object_text Example.zeroed eq_refl)) "0");
      reflexivity.
Defined.

Lemma invalid_parameters_block_the_save_witness :
  Example.parse_text "x" = None
  /\ Example.parse_text "{ }" = Some "{ }"
  /\ snd (handleSave Example.parse_text Example.draft
            (edit_parameters "x"
               (load (fun txt => txt) "{}" Example.is_object_text Example.draft)))
     = None.
Proof.
  split; [reflexivity|]. split; [reflexivity|].
  apply (invalid_parameters_block_the_save string Example.parse_text Example.draft
           (load (fun txt => txt) "{}" Example.is_object_text Example.draft)
           "x" "{ }" "{ }");
    reflexivity.
Defined.

(** X22: in the three tool catalogs taken together no two tools share a
    name, and every parameter a tool lists as required is declared among
    its properties. *)
Theorem catalogs_are_well_formed :
  NoDup (map fc_name Example.all_tools)
  /\ forall t, In t Example.all_tools -> required_declared t = true.
Proof.
  split.
  - unfold Example.all_tools, AVAILABLE_TOOLS, personalAssistantTools,
      navigationSystemTools. simpl.
    repeat (constructor; [simpl; intuition discriminate|]). constructor.
  - intros t Hin.
    assert (Hall : forallb required_declared Example.all_tools = true) by reflexivity.
    rewrite forallb_forall in Hall. now apply Hall.
Qed.

(** X23: every tool of the three catalogs has a description, parameters
    and a scheduling, so opening it in the editor and saving it without an
    edit hands onSave exactly the catalog entry, provided its parameters
    parse back from their printed text. *)
Theorem catalog_tools_survive_the_editor :
  forall (stringify : Schema -> string) (parse : string -> option Schema)
         (t : FunctionCall Schema),
    In t Example.all_tools ->
    parse (stringify (parameters_or_empty empty_schema schema_truthy t))
    = Some (parameters_or_empty empty_schema schema_truthy t) ->
    snd (handleSave parse t (load stringify empty_schema schema_truthy t)) = Some t.
Proof.
  intros stringify parse t Hin Hround.
  unfold handleSave, load. cbn [parametersStr]. rewrite Hround. cbn [snd].
  unfold Example.all_tools, AVAILABLE_TOOLS, personalAssistantTools,
    navigationSystemTools in Hin. simpl in Hin.
  repeat (destruct Hin as [<-|Hin]; [reflexivity|]). contradiction.
Qed.

Lemma catalog_tools_survive_the_editor_witness :
  In (tool "get_traffic_info"
        "Gets real-time traffic information for a specified location."
        [ ("location", mkParameterSpec "STRING"
             "The location to get traffic information for.") ]
        (Some ["location"]))
     Example.all_tools
  /\ snd (handleSave
            (Example.read_back
               {| s_type := Some "OBJECT";
                  s_properties :=
                    Some [ ("location", mkParameterSpec "STRING"
                              "The location to get traffic information for.") ];
                  s_required := Some ["location"] |})
            (tool "get_traffic_info"
               "Gets real-time traffic information for a specified location."
               [ ("location", mkParameterSpec "STRING"
                    "The location to get traffic information for.") ]
               (Some ["location"]))
            (load Example.print empty_schema schema_truthy
               (tool "get_traffic_info"
                  "Gets real-time traffic information for a specified location."
                  [ ("location", mkParameterSpec "STRING"
                       "The location to get traffic information for.") ]
                  (Some ["location"]))))
     = Some (tool "get_traffic_info"
               "Gets real-time traffic information for a specified location."
               [ ("location", mkParameterSpec "STRING"
                    "The location to get traffic information for.") ]
               (Some ["location"])).
Proof.
  assert (Hin : In (tool "get_traffic_info"
                      "Gets real-time traffic information for a specified location."
                      [ ("location", mkParameterSpec "STRING"
                           "The location to get traffic information for.") ]
                      (Some ["location"]))
                   Example.all_tools).
  { unfold Example.all_tools. apply in_or_app. right. apply in_or_app. right.
    right. right. left. reflexivity. }
  split; [exact Hin|].
  apply (catalog_tools_survive_the_editor Example.print _ _ Hin).
  reflexivity.
Defined.

Lemma catalogs_are_well_formed_witness :
  In (tool "get_traffic_info"
        "Gets real-time traffic information for a specified location."
        [ ("location", mkParameterSpec "STRING"
             "The location to get traffic information for.") ]
        (Some ["location"]))
     Example.all_tools
  /\ required_declared
       (tool "get_traffic_info"
          "Gets real-time traffic information for a specified location."
          [ ("location", mkParameterSpec "STRING"
               "The location to get traffic information for.") ]
          (Some ["location"]))
     = true.
Proof.
  assert (Hin : In (tool "get_traffic_info"
                      "Gets real-time traffic information for a specified location."
                      [ ("location", mkParameterSpec "STRING"
                           "The location to get traffic information for.") ]
                      (Some ["location"]))
                   Example.all_tools).
  { unfold Example.all_tools. apply in_or_app. right. apply in_or_app. right.
    right. right. left. reflexivity. }
  split; [exact Hin|].
  exact (proj2 catalogs_are_well_formed _ Hin).
Defined.
